(** * temp-write-sync: the temporary-file registry and its cleanup protocol

    A shallow embedding of [index.js] of temp-write-sync.  The module keeps
    two pieces of process-wide state, [tempFiles] (a JavaScript [Set]) and
    [cleanupRegistered]; every exported function is embedded as a function
    on an explicit [World] that carries them together with the platform
    (file system, clock, entropy source), the listeners attached to
    [process], and what was printed on the console.

    Layout: JavaScript values and the built-ins the module calls; the
    platform interface; the [Set] of tracked paths; the exported functions;
    a simulated platform for closed examples; the notions the statements
    use; the properties; the module's test suite replayed on the
    simulated platform. *)

From Stdlib Require Import String Ascii List ZArith NArith Lia Bool Arith PeanoNat.
From Stdlib Require Import DecimalString.
From Stdlib Require Strings.Byte.
Import ListNotations.
#[local] Set Warnings "-register-all".
#[local] Set Warnings "-automation".
#[local] Set Warnings "-default".
Open Scope string_scope.

(** ** JavaScript values *)

Module Js.

(** The values the module inspects: primitives, arrays and plain objects.
    Numbers are kept to the safe integers (of magnitude below 2^53),
    which [String] prints digit by digit; an [n] outside that range
    stands for no number of the language.  An object is its own
    enumerable properties in the engine's property order; a character of
    a [string] stands for one code unit.  Buffers and functions are not
    represented. *)
Inductive value : Type :=
| Undefined
| Null
| Boolean (b : bool)
| Number (n : Z)
| Str (s : string)
| Array (items : list value)
| Object (props : list (string * value)).

(** An exception: every value thrown here is an [Error] (or [TypeError])
    object, of which the module only ever reads [message]. *)
Record error : Type := mkError { name : string; message : string }.

Definition Error (msg : string) : error := mkError "Error" msg.
Definition TypeError (msg : string) : error := mkError "TypeError" msg.

Inductive completion (A : Type) : Type :=
| Normal (a : A)
| Throw (e : error).
Arguments Normal {A} a.
Arguments Throw {A} e.

(** [typeof v] *)
Definition typeof (v : value) : string :=
  match v with
  | Undefined => "undefined"
  | Null => "object"
  | Boolean _ => "boolean"
  | Number _ => "number"
  | Str _ => "string"
  | Array _ => "object"
  | Object _ => "object"
  end.

(** [Array.isArray(v)] *)
Definition isArray (v : value) : bool :=
  match v with Array _ => true | _ => false end.

(** ToBoolean, the test behind [if (v)], [!v] and [a || b]. *)
Definition truthy (v : value) : bool :=
  match v with
  | Undefined | Null => false
  | Boolean b => b
  | Number n => negb (Z.eqb n 0)
  | Str s => negb (String.eqb s "")
  | Array _ | Object _ => true
  end.

(** [a || b] *)
Definition or (a b : value) : value := if truthy a then a else b.

Definition decimal (n : Z) : string := NilEmpty.string_of_int (Z.to_int n).

(** [String(v)].  Inside an array [null] and [undefined] print as nothing
    ([Array.prototype.join]). *)
Fixpoint toString (v : value) : string :=
  match v with
  | Undefined => "undefined"
  | Null => "null"
  | Boolean true => "true"
  | Boolean false => "false"
  | Number n => decimal n
  | Str s => s
  | Array items =>
      String.concat ","
        (map (fun x => match x with
                       | Undefined | Null => ""
                       | _ => toString x
                       end) items)
  | Object _ => "[object Object]"
  end.

(** The position of array index [key] among [len] elements: [key] is an
    index when it is the decimal text of a number below [len]. *)
Definition arrayIndex (key : string) (len : nat) : option nat :=
  find (fun i => String.eqb (decimal (Z.of_nat i)) key) (seq 0 len).

Fixpoint lookup (key : string) (props : list (string * value)) : option value :=
  match props with
  | [] => None
  | (k, v) :: rest => if String.eqb k key then Some v else lookup key rest
  end.

(** The own property [key] of [v], the first step of the read [v[key]]:
    reading a property of [null] or [undefined] throws; [None] is a value
    that has no own property of that name, for which the read goes on to
    the prototype chain. *)
Definition getOwn (v : value) (key : string) : completion (option value) :=
  match v with
  | Undefined =>
      Throw (TypeError ("Cannot read properties of undefined (reading '" ++ key ++ "')"))
  | Null =>
      Throw (TypeError ("Cannot read properties of null (reading '" ++ key ++ "')"))
  | Boolean _ | Number _ => Normal None
  | Str s =>
      if String.eqb key "length" then Normal (Some (Number (Z.of_nat (String.length s))))
      else match arrayIndex key (String.length s) with
           | Some i => Normal (Some (Str (String.substring i 1 s)))
           | None => Normal None
           end
  | Array items =>
      if String.eqb key "length" then Normal (Some (Number (Z.of_nat (List.length items))))
      else match arrayIndex key (List.length items) with
           | Some i => Normal (Some (nth i items Undefined))
           | None => Normal None
           end
  | Object props => Normal (lookup key props)
  end.

(** What a property read gives: a value of the kinds above, or a member
    of a built-in prototype that is none of them -- a method such as
    [toString], the prototype itself under [__proto__].  Such a member is
    a function or an object, hence truthy, and all the module does with
    it is to take its text with [String]. *)
Inductive member : Type :=
| plain (v : value)
| foreign (text : string).

(** [Object.keys(v)], called by the module on values whose [typeof] is
    ["object"] and that are not arrays. *)
Definition keys (v : value) : completion (list string) :=
  match v with
  | Undefined | Null => Throw (TypeError "Cannot convert undefined or null to object")
  | Boolean _ | Number _ => Normal []
  | Str s => Normal (map (fun i => decimal (Z.of_nat i)) (seq 0 (String.length s)))
  | Array items => Normal (map (fun i => decimal (Z.of_nat i)) (seq 0 (List.length items)))
  | Object props => Normal (map fst props)
  end.

(** *** Strings *)

(** [s.startsWith(p)] *)
Definition startsWith (s p : string) : bool := String.prefix p s.

(** [s.indexOf(pat)]: where [pat] first occurs in [s]. *)
Fixpoint indexOf (s pat : string) : option nat :=
  if String.prefix pat s then Some 0
  else match s with
       | EmptyString => None
       | String _ rest => option_map S (indexOf rest pat)
       end.

(** GetSubstitution for a string pattern (no capture groups): in the
    replacement text [$$] is a dollar, [$&] the match, [$`] what precedes
    it and [$'] what follows; any other [$] is itself. *)
Fixpoint getSubstitution (matched before after replacement : string) : string :=
  match replacement with
  | EmptyString => EmptyString
  | String "$" (String "$" rest) =>
      String "$" (getSubstitution matched before after rest)
  | String "$" (String "&" rest) =>
      matched ++ getSubstitution matched before after rest
  | String "$" (String "`" rest) =>
      before ++ getSubstitution matched before after rest
  | String "$" (String "'" rest) =>
      after ++ getSubstitution matched before after rest
  | String c rest => String c (getSubstitution matched before after rest)
  end.

(** [s.replace(pat, replacement)] with a string pattern: only the first
    occurrence is replaced. *)
Definition replace (s pat replacement : string) : string :=
  match indexOf s pat with
  | None => s
  | Some i =>
      let before := String.substring 0 i s in
      let after := String.substring (i + String.length pat)
                     (String.length s - (i + String.length pat)) s in
      before ++ getSubstitution pat before after replacement ++ after
  end.

(** The global replace of the CSV cells, [replace] with the pattern
    matching every double quote (code 34) and two of them as replacement:
    every double quote is doubled. *)
Fixpoint doubleQuotes (s : string) : string :=
  match s with
  | EmptyString => EmptyString
  | String c rest =>
      if Ascii.eqb c "034"%char then String c (String c (doubleQuotes rest))
      else String c (doubleQuotes rest)
  end.

(** *** Number and Buffer to text *)

Definition digits36 : string := "0123456789abcdefghijklmnopqrstuvwxyz".

Definition digit (d : N) : ascii :=
  match String.get (N.to_nat d) digits36 with
  | Some c => c
  | None => "0"%char
  end.

Fixpoint radix36 (fuel : nat) (n : N) (acc : string) : string :=
  match fuel with
  | O => acc
  | S fuel' =>
      let acc' := String (digit (n mod 36)) acc in
      if (n / 36 =? 0)%N then acc' else radix36 fuel' (n / 36)%N acc'
  end.

(** [n.toString(36)] for a non-negative integer; a number has no more
    base-36 digits than bits. *)
Definition toString36 (n : N) : string := radix36 (S (N.to_nat (N.size n))) n "".

(** [buf.toString('hex')]: two lower-case digits per byte. *)
Fixpoint toHex (bytes : list Byte.byte) : string :=
  match bytes with
  | [] => EmptyString
  | b :: rest =>
      let n := Byte.to_N b in
      String (digit (n / 16)) (String (digit (n mod 16)) (toHex rest))
  end.

(** *** JSON *)

Definition quote : string := String "034" EmptyString.
Definition backslash : string := String "092" EmptyString.
Definition newline : string := String "010" EmptyString.

(** QuoteJSONString, one code unit at a time. *)
Definition jsonChar (c : ascii) : string :=
  let n := nat_of_ascii c in
  if Nat.eqb n 8 then backslash ++ "b"
  else if Nat.eqb n 9 then backslash ++ "t"
  else if Nat.eqb n 10 then backslash ++ "n"
  else if Nat.eqb n 12 then backslash ++ "f"
  else if Nat.eqb n 13 then backslash ++ "r"
  else if Nat.eqb n 34 then backslash ++ quote
  else if Nat.eqb n 92 then backslash ++ backslash
  else if Nat.ltb n 32 then
    backslash ++ "u00" ++ String (digit (N.of_nat (n / 16)))
                           (String (digit (N.of_nat (n mod 16))) EmptyString)
  else String c EmptyString.

Fixpoint jsonChars (s : string) : string :=
  match s with
  | EmptyString => EmptyString
  | String c rest => jsonChar c ++ jsonChars rest
  end.

Definition quoteJSON (s : string) : string := quote ++ jsonChars s ++ quote.

(** SerializeJSONProperty with a gap of two spaces; [None] is the
    [undefined] of a value that has no JSON text. *)
Fixpoint serializeJSON (indent : string) (v : value) : option string :=
  let inner := indent ++ "  " in
  let separator := "," ++ newline ++ inner in
  match v with
  | Undefined => None
  | Null => Some "null"
  | Boolean true => Some "true"
  | Boolean false => Some "false"
  | Number n => Some (decimal n)
  | Str s => Some (quoteJSON s)
  | Array items =>
      match map (fun x => match serializeJSON inner x with
                          | Some text => text
                          | None => "null"
                          end) items with
      | [] => Some "[]"
      | partial =>
          Some ("[" ++ newline ++ inner ++ String.concat separator partial
                    ++ newline ++ indent ++ "]")
      end
  | Object props =>
      match flat_map (fun kv => match serializeJSON inner (snd kv) with
                                | Some text => [quoteJSON (fst kv) ++ ": " ++ text]
                                | None => []
                                end) props with
      | [] => Some "{}"
      | partial =>
          Some ("{" ++ newline ++ inner ++ String.concat separator partial
                    ++ newline ++ indent ++ "}")
      end
  end.

(** The result of [JSON.stringify(v, null, 2)] on plain data. *)
Definition stringify (v : value) : value :=
  match serializeJSON EmptyString v with
  | Some text => Str text
  | None => Undefined
  end.

End Js.

(** ** The platform

    What Node provides and the module calls: [os], [path], [crypto],
    [Date] and [fs], and of the language runtime the built-in prototypes
    and [JSON].  [E] is the state of the outside world (the file system,
    the clock, the entropy pool); an operation that acts on it returns
    the world it leaves behind, also when it throws. *)

Class Platform (E : Type) : Type := {
  (** the member named [key] that [v] inherits from its prototype chain,
      if there is one: [Object.prototype.toString] for a record,
      [Array.prototype.map] for an array, and so on *)
  prototype_member : Js.value -> string -> option Js.member;
  (** [JSON.stringify(v, null, 2)]: a string, or [undefined] for a value
      that has no JSON text; it throws on a value it cannot serialize *)
  JSON_stringify : Js.value -> Js.completion Js.value;
  (** [os.tmpdir()] *)
  os_tmpdir : E -> string;
  (** [path.join(a, b)] *)
  path_join : string -> string -> string;
  (** [path.extname(p)] *)
  path_extname : string -> string;
  (** [crypto.randomBytes(n)] *)
  crypto_randomBytes : E -> nat -> E * list Byte.byte;
  (** [Date.now()] *)
  Date_now : E -> E * N;
  (** [fs.existsSync(p)], which never throws *)
  fs_existsSync : E -> string -> bool;
  (** [fs.statSync(p).isDirectory()] *)
  fs_statSync_isDirectory : E -> string -> Js.completion bool;
  (** [fs.mkdirSync(p, { recursive: true })] *)
  fs_mkdirSync : E -> string -> E * Js.completion unit;
  (** [fs.writeFileSync(p, data, { mode })]; no [mode] is the default one *)
  fs_writeFileSync : E -> string -> Js.value -> option N -> E * Js.completion unit;
  (** [fs.readFileSync(p)] *)
  fs_readFileSync : E -> string -> Js.completion Js.value;
  (** [fs.rmSync(p, { recursive: true, force: true })] *)
  fs_rmSync : E -> string -> E * Js.completion unit;
  (** [fs.unlinkSync(p)] *)
  fs_unlinkSync : E -> string -> E * Js.completion unit
}.

(** ** The Set of tracked paths

    A JavaScript [Set] as ECMAScript specifies it: the list [SetData] in
    insertion order, in which [delete] and [clear] overwrite entries by
    the marker [empty] ([None]) instead of removing them, so that an
    iteration in progress keeps its position. *)

Module JsSet.

Definition t : Type := list (option string).

Definition holds (v : string) (entry : option string) : bool :=
  match entry with
  | Some x => String.eqb x v
  | None => false
  end.

(** [new Set()] *)
Definition empty : t := [].

(** [d.has(v)] *)
Definition has (d : t) (v : string) : bool := existsb (holds v) d.

(** [d.add(v)] *)
Definition add (d : t) (v : string) : t :=
  if has d v then d else (d ++ [Some v])%list.

(** [d.delete(v)] *)
Definition delete (d : t) (v : string) : t :=
  map (fun entry => if holds v entry then None else entry) d.

(** [d.clear()] *)
Definition clear (d : t) : t := map (fun _ => None) d.

(** [Array.from(d)] *)
Fixpoint elements (d : t) : list string :=
  match d with
  | [] => []
  | Some v :: rest => v :: elements rest
  | None :: rest => elements rest
  end.

(** [d.size] *)
Definition size (d : t) : nat := List.length (elements d).

End JsSet.

(** ** The module's state *)

(** The events of [process] the module listens to. *)
Inductive ProcessEvent : Type :=
| exit
| SIGINT
| SIGTERM
| uncaughtException
| unhandledRejection.

Definition ProcessEvent_eqb (a b : ProcessEvent) : bool :=
  match a, b with
  | exit, exit | SIGINT, SIGINT | SIGTERM, SIGTERM
  | uncaughtException, uncaughtException
  | unhandledRejection, unhandledRejection => true
  | _, _ => false
  end.

Inductive ConsoleLine : Type :=
| console_warn (text : string)
| console_error (label what : string).

(** [tempFiles] and [cleanupRegistered] are the two module-level
    variables; [listeners] are the closures [registerCleanup] has attached
    with [process.on], oldest first, each named by its event; [console] is
    what was printed, oldest first. *)
Record World (E : Type) : Type := mkWorld {
  env : E;
  tempFiles : JsSet.t;
  cleanupRegistered : bool;
  listeners : list ProcessEvent;
  console : list ConsoleLine
}.
Arguments mkWorld {E} _ _ _ _ _.
Arguments env {E} _.
Arguments tempFiles {E} _.
Arguments cleanupRegistered {E} _.
Arguments listeners {E} _.
Arguments console {E} _.

(** The [options] argument; an absent key is [None] and takes the default
    of the destructuring pattern. *)
Record Options : Type := mkOptions {
  dir : option string;
  prefix : option string;
  cleanup : option bool;
  mode : option N;
  delimiter : option string
}.

Definition noOptions : Options := mkOptions None None None None None.

Definition orDefault {A : Type} (o : option A) (d : A) : A :=
  match o with Some a => a | None => d end.

Section Module_.

Context {E : Type} {platform : Platform E}.

Notation World := (World E).

Definition set_env (w : World) (e : E) : World :=
  mkWorld e (tempFiles w) (cleanupRegistered w) (listeners w) (console w).

Definition set_tempFiles (w : World) (d : JsSet.t) : World :=
  mkWorld (env w) d (cleanupRegistered w) (listeners w) (console w).

Definition print (w : World) (line : ConsoleLine) : World :=
  mkWorld (env w) (tempFiles w) (cleanupRegistered w) (listeners w)
          (console w ++ [line]).

(** The state when the module has just been loaded. *)
Definition loaded (e : E) : World := mkWorld e JsSet.empty false [] [].

(** The five listeners of [registerCleanup], in the order it attaches them. *)
Definition exitHandlers : list ProcessEvent :=
  [exit; SIGINT; SIGTERM; uncaughtException; unhandledRejection].

Definition registerCleanup (w : World) : World :=
  if cleanupRegistered w then w
  else mkWorld (env w) (tempFiles w) true (listeners w ++ exitHandlers) (console w).

(** The catch clauses: a new [Error] whose message quotes the cause. *)
Definition failed (what : string) (cause : Js.error) : Js.error :=
  Js.Error (what ++ ": " ++ Js.message cause).

Definition writeFailure : Js.error -> Js.error := failed "Failed to write temporary file".

(** The extension as [tempWriteSync] appends it: a dot is put in front of
    a non-empty one that has none. *)
Definition normalizeExtension (extension : string) : string :=
  if negb (String.eqb extension EmptyString) && negb (Js.startsWith extension ".")
  then "." ++ extension
  else extension.

(** The name [tempWriteSync] gives a file. *)
Definition tempFileName (prefix timestamp randomId extension : string) : string :=
  prefix ++ timestamp ++ "-" ++ randomId ++ extension.

Definition tempWriteSync (w : World) (content extension : Js.value) (options : Options)
  : World * Js.completion string :=
  let dir := orDefault (dir options) (os_tmpdir (env w)) in
  let prefix := orDefault (prefix options) "temp-" in
  let cleanup := orDefault (cleanup options) true in
  let mode := orDefault (mode options) 384%N in
  match content with
  | Js.Null | Js.Undefined =>
      (w, Js.Throw (Js.Error "Content cannot be null or undefined"))
  | _ =>
      match (match extension with Js.Undefined => Js.Str EmptyString | x => x end) with
      | Js.Str extension =>
          let extension := normalizeExtension extension in
          let (e1, bytes) := crypto_randomBytes (env w) 6 in
          let randomId := Js.toHex bytes in
          let (e2, now) := Date_now e1 in
          let timestamp := Js.toString36 now in
          let filename := tempFileName prefix timestamp randomId extension in
          let filePath := path_join dir filename in
          let (e3, made) :=
            if fs_existsSync e2 dir then (e2, Js.Normal tt) else fs_mkdirSync e2 dir in
          match made with
          | Js.Throw error => (set_env w e3, Js.Throw (writeFailure error))
          | Js.Normal _ =>
              let (e4, written) := fs_writeFileSync e3 filePath content (Some mode) in
              match written with
              | Js.Throw error => (set_env w e4, Js.Throw (writeFailure error))
              | Js.Normal _ =>
                  let w := set_env w e4 in
                  if cleanup then
                    let w := registerCleanup w in
                    (set_tempFiles w (JsSet.add (tempFiles w) filePath), Js.Normal filePath)
                  else (w, Js.Normal filePath)
              end
          end
      | _ => (w, Js.Throw (Js.Error "Extension must be a string"))
      end
  end.

Definition tempWriteJsonSync (w : World) (obj : Js.value) (options : Options)
  : World * Js.completion string :=
  if negb (String.eqb (Js.typeof obj) "object")
     || match obj with Js.Null => true | _ => false end
  then (w, Js.Throw (Js.Error "Input must be a valid object"))
  else
    match JSON_stringify obj with
    | Js.Throw error => (w, Js.Throw error)
    | Js.Normal jsonContent => tempWriteSync w jsonContent (Js.Str ".json") options
    end.

(** *** CSV *)

(** A cell: its text between quotes, the quotes inside doubled. *)
Definition csvCell (cell : Js.value) : string :=
  Js.quote ++ Js.doubleQuotes (Js.toString cell) ++ Js.quote.

(** [row.map(cell => ...).join(delimiter)]: only an array has [map]. *)
Definition csvArrayRow (delimiter : string) (row : Js.value) : Js.completion string :=
  match row with
  | Js.Array cells => Js.Normal (String.concat delimiter (map csvCell cells))
  | Js.Undefined =>
      Js.Throw (Js.TypeError "Cannot read properties of undefined (reading 'map')")
  | Js.Null =>
      Js.Throw (Js.TypeError "Cannot read properties of null (reading 'map')")
  | _ => Js.Throw (Js.TypeError "row.map is not a function")
  end.

(** [row[header]]: the own property if there is one, else what the
    prototype chain has under that name, else [undefined]. *)
Definition readProperty (row : Js.value) (header : string) : Js.completion Js.member :=
  match Js.getOwn row header with
  | Js.Throw error => Js.Throw error
  | Js.Normal (Some x) => Js.Normal (Js.plain x)
  | Js.Normal None =>
      Js.Normal (orDefault (prototype_member row header) (Js.plain Js.Undefined))
  end.

(** The cell of a record row: the text of [x || ''] between quotes, the
    quotes inside doubled. *)
Definition csvMemberCell (x : Js.member) : string :=
  match x with
  | Js.plain v => csvCell (Js.or v (Js.Str EmptyString))
  | Js.foreign text => Js.quote ++ Js.doubleQuotes text ++ Js.quote
  end.

(** [headers.map(header => ...)]: the cells of [row] under [headers]. *)
Fixpoint csvObjectCells (headers : list string) (row : Js.value)
  : Js.completion (list string) :=
  match headers with
  | [] => Js.Normal []
  | header :: rest =>
      match readProperty row header with
      | Js.Throw error => Js.Throw error
      | Js.Normal x =>
          match csvObjectCells rest row with
          | Js.Throw error => Js.Throw error
          | Js.Normal cells => Js.Normal (csvMemberCell x :: cells)
          end
      end
  end.

Definition csvObjectRow (delimiter : string) (headers : list string) (row : Js.value)
  : Js.completion string :=
  match csvObjectCells headers row with
  | Js.Throw error => Js.Throw error
  | Js.Normal cells => Js.Normal (String.concat delimiter cells)
  end.

(** [data.map(f)] for an [f] that may throw: the first exception ends it. *)
Fixpoint mapRows (f : Js.value -> Js.completion string) (data : list Js.value)
  : Js.completion (list string) :=
  match data with
  | [] => Js.Normal []
  | row :: rest =>
      match f row with
      | Js.Throw error => Js.Throw error
      | Js.Normal line =>
          match mapRows f rest with
          | Js.Throw error => Js.Throw error
          | Js.Normal lines => Js.Normal (line :: lines)
          end
      end
  end.

(** The text of the file, [csvContent], from the rows of [data]. *)
Definition csvContent (delimiter : string) (data : list Js.value) : Js.completion string :=
  match data with
  | [] => Js.Normal EmptyString
  | first :: _ =>
      if Js.isArray first then
        match mapRows (csvArrayRow delimiter) data with
        | Js.Throw error => Js.Throw error
        | Js.Normal lines => Js.Normal (String.concat Js.newline lines)
        end
      else if String.eqb (Js.typeof first) "object" then
        match Js.keys first with
        | Js.Throw error => Js.Throw error
        | Js.Normal headers =>
            let headerRow :=
              String.concat delimiter (map (fun h => Js.quote ++ h ++ Js.quote) headers) in
            match mapRows (csvObjectRow delimiter headers) data with
            | Js.Throw error => Js.Throw error
            | Js.Normal dataRows =>
                Js.Normal (String.concat Js.newline (headerRow :: dataRows))
            end
        end
      else Js.Throw (Js.Error "Invalid CSV data format")
  end.

Definition tempWriteCsvSync (w : World) (data : Js.value) (options : Options)
  : World * Js.completion string :=
  let delimiter := orDefault (delimiter options) "," in
  match data with
  | Js.Array rows =>
      match csvContent delimiter rows with
      | Js.Throw error => (w, Js.Throw error)
      | Js.Normal csvContent => tempWriteSync w (Js.Str csvContent) (Js.Str ".csv") options
      end
  | _ => (w, Js.Throw (Js.Error "CSV data must be an array"))
  end.

Definition tempDirSync (w : World) (options : Options) : World * Js.completion string :=
  let dir := orDefault (dir options) (os_tmpdir (env w)) in
  let prefix := orDefault (prefix options) "temp-dir-" in
  let cleanup := orDefault (cleanup options) true in
  let (e1, bytes) := crypto_randomBytes (env w) 6 in
  let randomId := Js.toHex bytes in
  let (e2, now) := Date_now e1 in
  let timestamp := Js.toString36 now in
  let dirName := prefix ++ timestamp ++ "-" ++ randomId in
  let dirPath := path_join dir dirName in
  let (e3, made) := fs_mkdirSync e2 dirPath in
  match made with
  | Js.Throw error =>
      (set_env w e3, Js.Throw (failed "Failed to create temporary directory" error))
  | Js.Normal _ =>
      let w := set_env w e3 in
      if cleanup then
        let w := registerCleanup w in
        (set_tempFiles w (JsSet.add (tempFiles w) dirPath), Js.Normal dirPath)
      else (w, Js.Normal dirPath)
  end.

(** *** Cleanup *)

(** The body of the [try] of [cleanupSync] up to the removal: nothing to
    do for a path that does not exist, [rmSync] for a directory,
    [unlinkSync] for anything else. *)
Definition remove (e : E) (filePath : string) : E * Js.completion unit :=
  if fs_existsSync e filePath then
    match fs_statSync_isDirectory e filePath with
    | Js.Throw error => (e, Js.Throw error)
    | Js.Normal true => fs_rmSync e filePath
    | Js.Normal false => fs_unlinkSync e filePath
    end
  else (e, Js.Normal tt).

Definition cleanupSync (w : World) (filePath : string) : World * bool :=
  let (e, removed) := remove (env w) filePath in
  match removed with
  | Js.Normal _ =>
      (set_tempFiles (set_env w e) (JsSet.delete (tempFiles w) filePath), true)
  | Js.Throw error =>
      (print (set_env w e)
         (console_warn ("Failed to cleanup " ++ filePath ++ ": " ++ Js.message error)),
       false)
  end.

(** The loop [for (const filePath of tempFiles)] of [cleanupAllSync].  The
    Set iterator holds a position [index] in the live [SetData]; each turn
    reads the entry there, steps over an emptied one, and stops past the
    last entry.  [fuel] bounds the turns; [None] is a loop cut short. *)
Fixpoint forOfTempFiles (fuel index : nat) (w : World) (cleanedCount : nat)
  : option (World * nat) :=
  match fuel with
  | O => None
  | S fuel' =>
      match nth_error (tempFiles w) index with
      | None => Some (w, cleanedCount)
      | Some None => forOfTempFiles fuel' (S index) w cleanedCount
      | Some (Some filePath) =>
          let (w', cleaned) := cleanupSync w filePath in
          forOfTempFiles fuel' (S index) w'
            (if cleaned then S cleanedCount else cleanedCount)
      end
  end.

Definition cleanupAllSync_within (fuel : nat) (w : World) : option (World * nat) :=
  match forOfTempFiles fuel 0 w 0 with
  | Some (w', cleanedCount) =>
      Some (set_tempFiles w' (JsSet.clear (tempFiles w')), cleanedCount)
  | None => None
  end.

(** [cleanupAllSync()].  One turn per entry of [SetData] and one more to
    see the end is all the loop takes ([cleanupAllSync_returns] below), so
    the second branch is never taken. *)
Definition cleanupAllSync (w : World) : World * nat :=
  match cleanupAllSync_within (S (List.length (tempFiles w))) w with
  | Some result => result
  | None => (w, 0)
  end.

Definition getTempFiles (w : World) : list string := JsSet.elements (tempFiles w).

Definition tempCopySync (w : World) (sourcePath : string) (extension : Js.value)
           (options : Options) : World * Js.completion string :=
  let extension := match extension with Js.Undefined => Js.Str EmptyString | x => x end in
  if negb (fs_existsSync (env w) sourcePath) then
    (w, Js.Throw (Js.Error ("Source file does not exist: " ++ sourcePath)))
  else
    match fs_readFileSync (env w) sourcePath with
    | Js.Throw error => (w, Js.Throw error)
    | Js.Normal content =>
        let extension :=
          if negb (Js.truthy extension) then Js.Str (path_extname sourcePath)
          else extension in
        tempWriteSync w content extension options
    end.

Definition excludeFromCleanup (w : World) (filePath : string) : World :=
  set_tempFiles w (JsSet.delete (tempFiles w) filePath).

Definition isTempFile (w : World) (filePath : string) : bool :=
  JsSet.has (tempFiles w) filePath.

(** The file name [tempWritePatternSync] makes of [pattern]. *)
Definition patternFileName (pattern randomId timestamp : string) : string :=
  Js.replace
    (Js.replace
       (Js.replace pattern "{random}" randomId)
       "{timestamp}" timestamp)
    "{time}" timestamp.

Definition tempWritePatternSync (w : World) (content : Js.value) (pattern : string)
           (options : Options) : World * Js.completion string :=
  let dir := orDefault (dir options) (os_tmpdir (env w)) in
  let cleanup := orDefault (cleanup options) true in
  let (e1, bytes) := crypto_randomBytes (env w) 6 in
  let randomId := Js.toHex bytes in
  let (e2, now) := Date_now e1 in
  let timestamp := Js.toString36 now in
  let filename := patternFileName pattern randomId timestamp in
  let filePath := path_join dir filename in
  let (e3, made) :=
    if fs_existsSync e2 dir then (e2, Js.Normal tt) else fs_mkdirSync e2 dir in
  match made with
  | Js.Throw error => (set_env w e3, Js.Throw (writeFailure error))
  | Js.Normal _ =>
      let (e4, written) := fs_writeFileSync e3 filePath content None in
      match written with
      | Js.Throw error => (set_env w e4, Js.Throw (writeFailure error))
      | Js.Normal _ =>
          let w := set_env w e4 in
          if cleanup then
            let w := registerCleanup w in
            (set_tempFiles w (JsSet.add (tempFiles w) filePath), Js.Normal filePath)
          else (w, Js.Normal filePath)
      end
  end.

(** *** The listeners at work *)

(** [process.exit(code)]: the ['exit'] listeners run, then the process
    ends. *)
Definition process_exit (w : World) : World :=
  fold_left (fun w listener =>
               match listener with
               | exit => fst (cleanupAllSync w)
               | _ => w
               end) (listeners w) w.

(** The closure attached for [event], called with the text of the error
    or reason; the exit code when it ends the process. *)
Definition listener (event : ProcessEvent) (what : string) (w : World)
  : World * option Z :=
  match event with
  | exit => (fst (cleanupAllSync w), None)
  | SIGINT | SIGTERM => (process_exit (fst (cleanupAllSync w)), Some 0%Z)
  | uncaughtException =>
      let w := print w (console_error "Uncaught Exception:" what) in
      (process_exit (fst (cleanupAllSync w)), Some 1%Z)
  | unhandledRejection =>
      let w := print w (console_error "Unhandled Rejection:" what) in
      (process_exit (fst (cleanupAllSync w)), Some 1%Z)
  end.

Fixpoint emitTo (attached : list ProcessEvent) (event : ProcessEvent) (what : string)
         (w : World) : World * option Z :=
  match attached with
  | [] => (w, None)
  | l :: rest =>
      if ProcessEvent_eqb l event then
        match listener l what w with
        | (w', Some code) => (w', Some code)
        | (w', None) => emitTo rest event what w'
        end
      else emitTo rest event what w
  end.

(** [event] reaches the process: the module's listeners for it run. *)
Definition emit (w : World) (event : ProcessEvent) (what : string) : World * option Z :=
  emitTo (listeners w) event what w.

(** *** A run of the program that uses the module *)

Inductive Call : Type :=
| call_tempWriteSync (content extension : Js.value) (options : Options)
| call_tempWriteJsonSync (obj : Js.value) (options : Options)
| call_tempWriteCsvSync (data : Js.value) (options : Options)
| call_tempDirSync (options : Options)
| call_tempCopySync (sourcePath : string) (extension : Js.value) (options : Options)
| call_tempWritePatternSync (content : Js.value) (pattern : string) (options : Options)
| call_cleanupSync (filePath : string)
| call_cleanupAllSync
| call_getTempFiles
| call_excludeFromCleanup (filePath : string)
| call_isTempFile (filePath : string).

Inductive Returned : Type :=
| returned_path (filePath : string)
| returned_bool (b : bool)
| returned_count (n : nat)
| returned_paths (l : list string)
| returned_undefined.

Definition returnPath (r : World * Js.completion string) : World * Js.completion Returned :=
  match r with
  | (w, Js.Normal p) => (w, Js.Normal (returned_path p))
  | (w, Js.Throw error) => (w, Js.Throw error)
  end.

Definition step (w : World) (c : Call) : World * Js.completion Returned :=
  match c with
  | call_tempWriteSync content extension options =>
      returnPath (tempWriteSync w content extension options)
  | call_tempWriteJsonSync obj options => returnPath (tempWriteJsonSync w obj options)
  | call_tempWriteCsvSync data options => returnPath (tempWriteCsvSync w data options)
  | call_tempDirSync options => returnPath (tempDirSync w options)
  | call_tempCopySync sourcePath extension options =>
      returnPath (tempCopySync w sourcePath extension options)
  | call_tempWritePatternSync content pattern options =>
      returnPath (tempWritePatternSync w content pattern options)
  | call_cleanupSync filePath =>
      let (w', cleaned) := cleanupSync w filePath in (w', Js.Normal (returned_bool cleaned))
  | call_cleanupAllSync =>
      let (w', n) := cleanupAllSync w in (w', Js.Normal (returned_count n))
  | call_getTempFiles => (w, Js.Normal (returned_paths (getTempFiles w)))
  | call_excludeFromCleanup filePath =>
      (excludeFromCleanup w filePath, Js.Normal returned_undefined)
  | call_isTempFile filePath => (w, Js.Normal (returned_bool (isTempFile w filePath)))
  end.

(** The state after a sequence of calls, whatever each returned or threw
    (a caller may catch). *)
Definition run (w : World) (calls : list Call) : World :=
  fold_left (fun w c => fst (step w c)) calls w.

(** Whether [c] asks for a tracked resource: a creating call whose
    [cleanup] option is absent or true. *)
Definition wantsCleanup (c : Call) : bool :=
  match c with
  | call_tempWriteSync _ _ options
  | call_tempWriteJsonSync _ options
  | call_tempWriteCsvSync _ options
  | call_tempDirSync options
  | call_tempCopySync _ _ options
  | call_tempWritePatternSync _ _ options => orDefault (cleanup options) true
  | _ => false
  end.

End Module_.

(** ** What the file system promises

    The one property of the platform a theorem below relies on: a removal
    that returns leaves nothing at the path. *)

Class Removes {E : Type} (platform : Platform E) : Prop := {
  unlinkSync_removes : forall e p e' u,
    fs_unlinkSync e p = (e', Js.Normal u) -> fs_existsSync e' p = false;
  rmSync_removes : forall e p e' u,
    fs_rmSync e p = (e', Js.Normal u) -> fs_existsSync e' p = false
}.

(** ** A simulated platform

    A small file system for closed examples: a flat table from paths to
    files and directories, a directory owning the paths that extend its
    own by a slash; a list of paths the process may not touch, on which
    every change fails with EACCES; a clock that ticks at each reading;
    and the bytes the entropy source will hand out.  Its values are plain
    data, which [JSON] always serializes; of the built-in prototypes it
    has the members every value inherits from [Object.prototype], and not
    the methods [Array.prototype] and its like add to them. *)

Module Sim.

Inductive node : Type :=
| file (content : Js.value) (mode : option N)
| directory.

Record env : Type := mkEnv {
  nodes : list (string * node);
  denied : list string;
  clock : N;
  entropy : list (list Byte.byte)
}.

Definition set_nodes (e : env) (l : list (string * node)) : env :=
  mkEnv l (denied e) (clock e) (entropy e).

Fixpoint find (p : string) (l : list (string * node)) : option node :=
  match l with
  | [] => None
  | (q, n) :: rest => if String.eqb q p then Some n else find p rest
  end.

Definition isDenied (e : env) (p : string) : bool :=
  existsb (String.eqb p) (denied e).

Definition errno (code what p : string) : Js.error :=
  Js.Error (code ++ ", " ++ what ++ " '" ++ p ++ "'").

Definition EACCES : string -> string -> Js.error := errno "EACCES: permission denied".
Definition ENOENT : string -> string -> Js.error := errno "ENOENT: no such file or directory".
Definition EISDIR : string -> string -> Js.error :=
  errno "EISDIR: illegal operation on a directory".
Definition EEXIST : string -> string -> Js.error := errno "EEXIST: file already exists".

Definition existsSync (e : env) (p : string) : bool :=
  match find p (nodes e) with Some _ => true | None => false end.

Definition statSync_isDirectory (e : env) (p : string) : Js.completion bool :=
  match find p (nodes e) with
  | Some directory => Js.Normal true
  | Some (file _ _) => Js.Normal false
  | None => Js.Throw (ENOENT "stat" p)
  end.

Definition without (p : string) (l : list (string * node)) : list (string * node) :=
  filter (fun entry => negb (String.eqb (fst entry) p)) l.

Definition withoutTree (p : string) (l : list (string * node)) : list (string * node) :=
  filter (fun entry => negb (String.eqb (fst entry) p)
                       && negb (String.prefix (p ++ "/") (fst entry))) l.

Definition mkdirSync (e : env) (p : string) : env * Js.completion unit :=
  if isDenied e p then (e, Js.Throw (EACCES "mkdir" p))
  else match find p (nodes e) with
       | Some directory => (e, Js.Normal tt)
       | Some (file _ _) => (e, Js.Throw (EEXIST "mkdir" p))
       | None => (set_nodes e (nodes e ++ [(p, directory)])%list, Js.Normal tt)
       end.

Definition writeFileSync (e : env) (p : string) (data : Js.value) (mode : option N)
  : env * Js.completion unit :=
  match data with
  | Js.Str _ =>
      if isDenied e p then (e, Js.Throw (EACCES "open" p))
      else match find p (nodes e) with
           | Some directory => (e, Js.Throw (EISDIR "open" p))
           | _ => (set_nodes e (without p (nodes e) ++ [(p, file data mode)])%list,
                   Js.Normal tt)
           end
  | _ => (e, Js.Throw (Js.TypeError
            "The data argument must be of type string or an instance of Buffer"))
  end.

Definition readFileSync (e : env) (p : string) : Js.completion Js.value :=
  match find p (nodes e) with
  | Some (file content _) => Js.Normal content
  | Some directory => Js.Throw (EISDIR "read" p)
  | None => Js.Throw (ENOENT "open" p)
  end.

Definition rmSync (e : env) (p : string) : env * Js.completion unit :=
  if isDenied e p then (e, Js.Throw (EACCES "rm" p))
  else (set_nodes e (withoutTree p (nodes e)), Js.Normal tt).

Definition unlinkSync (e : env) (p : string) : env * Js.completion unit :=
  if isDenied e p then (e, Js.Throw (EACCES "unlink" p))
  else match find p (nodes e) with
       | Some (file _ _) => (set_nodes e (without p (nodes e)), Js.Normal tt)
       | Some directory => (e, Js.Throw (EISDIR "unlink" p))
       | None => (e, Js.Throw (ENOENT "unlink" p))
       end.

Definition now (e : env) : env * N :=
  (mkEnv (nodes e) (denied e) (clock e + 1)%N (entropy e), clock e).

Definition randomBytes (e : env) (n : nat) : env * list Byte.byte :=
  match entropy e with
  | bytes :: rest => (mkEnv (nodes e) (denied e) (clock e) rest, firstn n bytes)
  | [] => (e, repeat Byte.x00 n)
  end.

(** The suffix of [s] that starts at the last [c] in it. *)
Fixpoint lastFrom (c : ascii) (s : string) : option string :=
  match s with
  | EmptyString => None
  | String x rest =>
      match lastFrom c rest with
      | Some t => Some t
      | None => if Ascii.eqb x c then Some s else None
      end
  end.

Definition basename (p : string) : string :=
  match lastFrom "/" p with
  | Some (String _ rest) => rest
  | _ => p
  end.

Definition extname (p : string) : string :=
  match basename p with
  | EmptyString => EmptyString
  | String first rest =>
      if String.eqb (String first rest) ".." then EmptyString
      else orDefault (lastFrom "." rest) EmptyString
  end.

(** [path.join] of a directory that is already normal and a plain name. *)
Definition join (a b : string) : string := a ++ "/" ++ b.

(** [String(f)] of a built-in function named [name]. *)
Definition nativeFunction (name : string) : string :=
  "function " ++ name ++ "() { [native code] }".

(** The methods of [Object.prototype]. *)
Definition objectMethods : list string :=
  [ "hasOwnProperty"; "isPrototypeOf"; "propertyIsEnumerable"; "toLocaleString";
    "toString"; "valueOf"; "__defineGetter__"; "__defineSetter__";
    "__lookupGetter__"; "__lookupSetter__" ].

(** The name of the constructor of [v], and [String] of its prototype. *)
Definition constructorName (v : Js.value) : string :=
  match v with
  | Js.Boolean _ => "Boolean"
  | Js.Number _ => "Number"
  | Js.Str _ => "String"
  | Js.Array _ => "Array"
  | _ => "Object"
  end.

Definition prototypeText (v : Js.value) : string :=
  match v with
  | Js.Boolean _ => "false"
  | Js.Number _ => "0"
  | Js.Str _ | Js.Array _ => ""
  | _ => "[object Object]"
  end.

Definition inherited (v : Js.value) (key : string) : option Js.member :=
  match v with
  | Js.Undefined | Js.Null => None
  | _ =>
      if String.eqb key "constructor"
      then Some (Js.foreign (nativeFunction (constructorName v)))
      else if String.eqb key "__proto__"
      then Some (Js.foreign (prototypeText v))
      else if existsb (String.eqb key) objectMethods
      then Some (Js.foreign (nativeFunction key))
      else None
  end.

End Sim.

#[export] Instance SimPlatform : Platform Sim.env := {
  prototype_member := Sim.inherited;
  JSON_stringify := fun v => Js.Normal (Js.stringify v);
  os_tmpdir := fun _ => "/tmp";
  path_join := Sim.join;
  path_extname := Sim.extname;
  crypto_randomBytes := Sim.randomBytes;
  Date_now := Sim.now;
  fs_existsSync := Sim.existsSync;
  fs_statSync_isDirectory := Sim.statSync_isDirectory;
  fs_mkdirSync := Sim.mkdirSync;
  fs_writeFileSync := Sim.writeFileSync;
  fs_readFileSync := Sim.readFileSync;
  fs_rmSync := Sim.rmSync;
  fs_unlinkSync := Sim.unlinkSync
}.

(** ** Notions the statements use *)

Section Notions.

Context {E : Type} {platform : Platform E}.

Notation World := (World E).

(** The bulk cleanup in the words of the specification: take the tracked
    paths as they stand, attempt [cleanupSync] on each in turn, and record
    the outcome of every attempt. *)
Fixpoint cleanupEach (w : World) (snapshot : list string) : World * list bool :=
  match snapshot with
  | [] => (w, [])
  | filePath :: rest =>
      let (w1, cleaned) := cleanupSync w filePath in
      let (w2, outcomes) := cleanupEach w1 rest in
      (w2, cleaned :: outcomes)
  end.

(** How many of the attempts succeeded. *)
Definition succeeded (outcomes : list bool) : nat := count_occ bool_dec outcomes true.

(** [cleanupAll] of the specification: drain the registry, attempt the
    single cleanup on every path of the drained snapshot, and return how
    many succeeded. *)
Definition drainThenCleanup (w : World) : World * nat :=
  let snapshot := getTempFiles w in
  let drained := set_tempFiles w (JsSet.clear (tempFiles w)) in
  let (w', outcomes) := cleanupEach drained snapshot in
  (w', succeeded outcomes).

(** Two states of the module that differ at most in the outside world. *)
Definition sameModuleState (w w' : World) : Prop :=
  tempFiles w' = tempFiles w
  /\ cleanupRegistered w' = cleanupRegistered w
  /\ listeners w' = listeners w
  /\ console w' = console w.

(** What a creating call does to the module's state: it throws and leaves
    it alone, or returns a path that it leaves untracked, or returns a
    path after [registerCleanup(); tempFiles.add(path)]. *)
Inductive Creates (tracking : bool) (w : World) : World * Js.completion string -> Prop :=
| creates_throws w' error :
    sameModuleState w w' -> Creates tracking w (w', Js.Throw error)
| creates_untracked w' filePath :
    tracking = false -> sameModuleState w w' ->
    Creates tracking w (w', Js.Normal filePath)
| creates_tracked e filePath :
    tracking = true ->
    Creates tracking w
      (set_tempFiles (registerCleanup (set_env w e))
                     (JsSet.add (tempFiles (registerCleanup (set_env w e))) filePath),
       Js.Normal filePath).

(** What any other call does to it: the flag and the listeners stay, and
    the Set is left alone, or has one path deleted, or is cleared. *)
Definition Releases (w w' : World) : Prop :=
  cleanupRegistered w' = cleanupRegistered w
  /\ listeners w' = listeners w
  /\ (tempFiles w' = tempFiles w
      \/ (exists p, tempFiles w' = JsSet.delete (tempFiles w) p)
      \/ tempFiles w' = JsSet.clear (tempFiles w)).

(** What the listeners do when an event arrives: the Set is left alone or
    is cleared, and nothing else of the module changes. *)
Definition swept (w w' : World) : Prop :=
  cleanupRegistered w' = cleanupRegistered w
  /\ listeners w' = listeners w
  /\ (tempFiles w' = tempFiles w \/ tempFiles w' = JsSet.clear (tempFiles w)).

(** The listeners are those of [registerCleanup], attached once, exactly
    when the flag is set. *)
Definition hooksMatchFlag (w : World) : Prop :=
  (cleanupRegistered w = false /\ listeners w = [])
  \/ (cleanupRegistered w = true /\ listeners w = exitHandlers).

(** Nothing is tracked unless the hooks are in place. *)
Definition trackedImpliesHooks (w : World) : Prop :=
  getTempFiles w = [] \/ (cleanupRegistered w = true /\ listeners w = exitHandlers).

(** The three invariants of a run. *)
Definition wellKept (w : World) : Prop :=
  hooksMatchFlag w /\ trackedImpliesHooks w /\ NoDup (getTempFiles w).

(** Where [tempWriteSync] is about to write, for an extension that is a
    string: the outside world once the random bytes and the time have
    been drawn, the directory, and the path of the file. *)
Definition writeTarget (w : World) (extension : string) (options : Options)
  : E * string * string :=
  let dir := orDefault (dir options) (os_tmpdir (env w)) in
  let prefix := orDefault (prefix options) "temp-" in
  let (e1, bytes) := crypto_randomBytes (env w) 6 in
  let (e2, now) := Date_now e1 in
  (e2, dir,
   path_join dir (tempFileName prefix (Js.toString36 now) (Js.toHex bytes)
                               (normalizeExtension extension))).

(** The file-system calls inside the [try] of [tempWriteSync]: the
    directory is made if it is not there, then the file is written. *)
Definition writeAttempt (e : E) (dir filePath : string) (content : Js.value) (mode : N)
  : E * Js.completion unit :=
  let (e', made) :=
    if fs_existsSync e dir then (e, Js.Normal tt) else fs_mkdirSync e dir in
  match made with
  | Js.Throw error => (e', Js.Throw error)
  | Js.Normal _ => fs_writeFileSync e' filePath content (Some mode)
  end.

(** The file-system call of a creating operation that threw [cause],
    leaving the outside world as [e']. *)
Definition ioThrew (e' : E) (cause : Js.error) : Prop :=
  (exists e p, fs_mkdirSync e p = (e', Js.Throw cause))
  \/ (exists e p data mode, fs_writeFileSync e p data mode = (e', Js.Throw cause)).

End Notions.

(** [s'] is [s] with the first occurrence of [pat], if there is one,
    replaced by [r]. *)
Inductive FirstReplaced (pat r : string) (s : string) : string -> Prop :=
| replaced_none :
    (forall a b, s <> a ++ pat ++ b) -> FirstReplaced pat r s s
| replaced_first a b :
    s = a ++ pat ++ b ->
    (forall a' b', s = a' ++ pat ++ b' -> String.length a <= String.length a') ->
    FirstReplaced pat r s (a ++ r ++ b).

(** Text in which no character is a dollar sign. *)
Fixpoint dollarFree (s : string) : bool :=
  match s with
  | EmptyString => true
  | String c rest => negb (Ascii.eqb c "$") && dollarFree rest
  end.

(** The number a base-36 numeral stands for. *)
Definition digitValue (c : ascii) : N :=
  match Js.indexOf Js.digits36 (String c EmptyString) with
  | Some i => N.of_nat i
  | None => 0%N
  end.

Fixpoint value36 (s : string) : N :=
  match s with
  | EmptyString => 0%N
  | String c rest =>
      (digitValue c * 36 ^ N.of_nat (String.length rest) + value36 rest)%N
  end.

(** *** Example worlds on the simulated platform *)

Module Example.

Definition bytes : list Byte.byte :=
  [Byte.x0a; Byte.x1b; Byte.x2c; Byte.x3d; Byte.x4e; Byte.x5f].

(** A freshly loaded module, an empty [/tmp] and one draw of entropy. *)
Definition fresh : World Sim.env :=
  loaded (Sim.mkEnv [("/tmp", Sim.directory)] [] 1700000000000 [bytes]).

(** As [fresh], but the file [tempWriteSync] is about to name may not be
    created. *)
Definition readOnly : World Sim.env :=
  loaded (Sim.mkEnv [("/tmp", Sim.directory)]
                    ["/tmp/temp-loyw3v28-0a1b2c3d4e5f.txt"] 1700000000000 [bytes]).

(** Two tracked files, of which [/tmp/a] may not be removed. *)
Definition stuck : World Sim.env :=
  mkWorld
    (Sim.mkEnv [("/tmp", Sim.directory);
                ("/tmp/a", Sim.file (Js.Str "x") (Some 384%N));
                ("/tmp/b", Sim.file (Js.Str "y") (Some 384%N))]
               ["/tmp/a"] 0 [])
    [Some "/tmp/a"; Some "/tmp/b"] true exitHandlers [].

(** The world of the module's test suite: a temporary directory with a
    file to copy in it, a directory that cannot be made, and two draws of
    entropy. *)
Definition suite : World Sim.env :=
  loaded (Sim.mkEnv [("/tmp", Sim.directory);
                     ("/tmp/source-test.md", Sim.file (Js.Str "content") None)]
                    ["/invalid/path/that/does/not/exist"] 1700000000000
                    [bytes; [Byte.xff; Byte.x00; Byte.x10; Byte.xab; Byte.xcd; Byte.xef]]).

(** The files the two draws name. *)
Definition first : string := "/tmp/temp-loyw3v28-0a1b2c3d4e5f".
Definition second : string := "/tmp/temp-loyw3v29-ff0010abcdef".

Definition quoted (s : string) : string := Js.quote ++ s ++ Js.quote.

Definition only (cleanup : bool) : Options := mkOptions None None (Some cleanup) None None.

Definition within (dir : string) : Options := mkOptions (Some dir) None None None None.

Definition separatedBy (delimiter : string) : Options :=
  mkOptions None None None None (Some delimiter).

(** What a creating call left in the file it returned. *)
Definition written (r : World Sim.env * Js.completion string) : Js.completion Js.value :=
  match r with
  | (w, Js.Normal filePath) => fs_readFileSync (env w) filePath
  | (_, Js.Throw error) => Js.Throw error
  end.

(** [[{a: 1}, 42]] and [[[1], 42]]: rows of mixed shapes. *)
Definition recordThenNumber : Js.value :=
  Js.Array [Js.Object [("a", Js.Number 1)]; Js.Number 42].

Definition arrayThenNumber : Js.value :=
  Js.Array [Js.Array [Js.Number 1]; Js.Number 42].

End Example.

(** * Properties *)

(** ** The Set *)

Module JsSetFacts.
Import JsSet.
#[local] Open Scope list_scope.

Lemma has_app (d d' : t) (v : string) : has (d ++ d') v = has d v || has d' v.
Proof. unfold has. apply existsb_app. Qed.

Lemma has_add (d : t) (v u : string) : has (add d v) u = String.eqb v u || has d u.
Proof.
  unfold add. destruct (has d v) eqn:Hv.
  - destruct (String.eqb_spec v u) as [->|]; [now rewrite Hv|reflexivity].
  - rewrite has_app. simpl. unfold has at 2. simpl.
    rewrite orb_false_r. apply orb_comm.
Qed.

Lemma has_delete (d : t) (v u : string) :
  has (delete d v) u = negb (String.eqb v u) && has d u.
Proof.
  unfold has, delete. induction d as [|[x|] d IH]; simpl.
  - now rewrite andb_false_r.
  - rewrite IH. destruct (String.eqb_spec x v) as [->|Hxv]; simpl.
    + destruct (String.eqb_spec v u); reflexivity.
    + destruct (String.eqb_spec x u) as [->|]; simpl.
      * destruct (String.eqb_spec v u); [congruence|reflexivity].
      * reflexivity.
  - exact IH.
Qed.

Lemma has_clear (d : t) (v : string) : has (clear d) v = false.
Proof. unfold has, clear. induction d; simpl; auto. Qed.

Lemma elements_clear (d : t) : elements (clear d) = [].
Proof. unfold clear. induction d; simpl; auto. Qed.

Lemma clear_clear (d : t) : clear (clear d) = clear d.
Proof. unfold clear. rewrite map_map. reflexivity. Qed.

Lemma length_delete (d : t) (v : string) : List.length (delete d v) = List.length d.
Proof. apply length_map. Qed.

Lemma length_clear (d : t) : List.length (clear d) = List.length d.
Proof. apply length_map. Qed.

Lemma clear_same_length (d d' : t) :
  List.length d = List.length d' -> clear d = clear d'.
Proof.
  unfold clear. revert d'.
  induction d as [|x d IH]; intros [|y d'] H; simpl in *; try discriminate; auto.
  f_equal. apply IH. now inversion H.
Qed.

Lemma has_elements (d : t) (v : string) : has d v = true <-> In v (elements d).
Proof.
  unfold has. induction d as [|[x|] d IH]; simpl.
  - split; [discriminate|tauto].
  - rewrite orb_true_iff, IH. destruct (String.eqb_spec x v); intuition congruence.
  - exact IH.
Qed.

Lemma elements_nil_has (d : t) (v : string) : elements d = [] -> has d v = false.
Proof.
  intros H. destruct (has d v) eqn:Hv; [|reflexivity].
  apply has_elements in Hv. rewrite H in Hv. destruct Hv.
Qed.

Lemma delete_absent (d : t) (v : string) : has d v = false -> delete d v = d.
Proof.
  unfold has, delete. induction d as [|x d IH]; simpl; [reflexivity|].
  intros H. apply orb_false_iff in H as [Hx Hd].
  rewrite Hx, (IH Hd). reflexivity.
Qed.

Lemma delete_delete (d : t) (v : string) : delete (delete d v) v = delete d v.
Proof.
  apply delete_absent. rewrite has_delete, String.eqb_refl. reflexivity.
Qed.

Lemma skipn_delete (n : nat) (d : t) (v : string) :
  skipn n (delete d v) = delete (skipn n d) v.
Proof. unfold delete. apply skipn_map. Qed.

Lemma size_delete (d : t) (v : string) : size (delete d v) <= size d.
Proof.
  unfold size, delete. induction d as [|[x|] d IH]; simpl; [lia| |exact IH].
  destruct (String.eqb x v); simpl; lia.
Qed.

Lemma elements_add (d : t) (v : string) :
  elements (add d v) = if has d v then elements d else elements d ++ [v].
Proof.
  unfold add. destruct (has d v); [reflexivity|].
  induction d as [|[x|] d IH]; simpl; [reflexivity| |exact IH].
  now rewrite IH.
Qed.

Lemma NoDup_add (d : t) (v : string) :
  NoDup (elements d) -> NoDup (elements (add d v)).
Proof.
  intros H. rewrite elements_add. destruct (has d v) eqn:Hv; [exact H|].
  apply NoDup_app; [exact H|repeat constructor; intros []|].
  intros x Hx [<-|[]]. apply has_elements in Hx. congruence.
Qed.

Lemma NoDup_delete (d : t) (v : string) :
  NoDup (elements d) -> NoDup (elements (delete d v)).
Proof.
  unfold delete. induction d as [|[x|] d IH]; simpl; [auto| |exact IH].
  intros H. inversion H as [|? ? Hx Hd]; subst.
  destruct (String.eqb x v); simpl; [auto|].
  constructor; [|auto].
  intros Hin. apply Hx. apply has_elements. apply has_elements in Hin.
  fold (delete d v) in Hin. rewrite has_delete in Hin.
  apply andb_true_iff in Hin. tauto.
Qed.

End JsSetFacts.

(** ** Cleanup *)

Section CleanupFacts.

Context {E : Type} {platform : Platform E}.

Notation World := (World E).

#[local] Open Scope list_scope.

Lemma skipn_nth_error {A : Type} (l : list A) (i : nat) (x : A) :
  nth_error l i = Some x -> skipn i l = x :: skipn (S i) l.
Proof.
  revert i. induction l as [|y l IH]; intros [|i] H; simpl in *; try discriminate.
  - now inversion H.
  - exact (IH _ H).
Qed.

Lemma skipn_nth_error_None {A : Type} (l : list A) (i : nat) :
  nth_error l i = None -> skipn i l = [].
Proof. intros H. apply skipn_all2. now apply nth_error_None. Qed.

(** What [cleanupSync] does to the module's state. *)
Lemma cleanupSync_state (w : World) (p : string) :
  tempFiles (fst (cleanupSync w p))
  = (if snd (cleanupSync w p) then JsSet.delete (tempFiles w) p else tempFiles w)
  /\ cleanupRegistered (fst (cleanupSync w p)) = cleanupRegistered w
  /\ listeners (fst (cleanupSync w p)) = listeners w.
Proof.
  unfold cleanupSync. destruct (remove (env w) p) as [e [u|error]]; simpl; auto.
Qed.

Lemma cleanupSync_length (w : World) (p : string) :
  List.length (tempFiles (fst (cleanupSync w p))) = List.length (tempFiles w).
Proof.
  destruct (cleanupSync_state w p) as [-> _].
  destruct (snd (cleanupSync w p)); [apply JsSetFacts.length_delete|reflexivity].
Qed.

(** The loop comes to its end within one turn per remaining entry and one
    more, having changed neither the flag nor the listeners, and having
    counted at most the paths it found. *)
Lemma forOfTempFiles_ends (fuel : nat) : forall (index : nat) (w : World) (c : nat),
  List.length (tempFiles w) - index < fuel ->
  exists w' n,
    forOfTempFiles fuel index w c = Some (w', n)
    /\ List.length (tempFiles w') = List.length (tempFiles w)
    /\ cleanupRegistered w' = cleanupRegistered w
    /\ listeners w' = listeners w
    /\ c <= n <= c + JsSet.size (skipn index (tempFiles w)).
Proof.
  induction fuel as [|fuel IH]; intros index w c Hfuel; [lia|].
  simpl. destruct (nth_error (tempFiles w) index) as [[p|]|] eqn:Hnth.
  - assert (Hlt : index < List.length (tempFiles w))
      by (apply nth_error_Some; congruence).
    rewrite (skipn_nth_error _ _ _ Hnth).
    pose proof (cleanupSync_state w p) as (Hd & Hflag & Hlis).
    pose proof (cleanupSync_length w p) as Hlen.
    destruct (cleanupSync w p) as [w1 cleaned]; cbn [fst snd] in *.
    destruct (IH (S index) w1 (if cleaned then S c else c)) as (w' & n & Hrun & Hl & Hf & Hs & Hn);
      [lia|].
    exists w', n. rewrite Hrun, Hl, Hf, Hs. repeat split; try congruence.
    + destruct cleaned; lia.
    + assert (JsSet.size (skipn (S index) (tempFiles w1))
              <= JsSet.size (skipn (S index) (tempFiles w))).
      { rewrite Hd. destruct cleaned; [|lia].
        rewrite JsSetFacts.skipn_delete. apply JsSetFacts.size_delete. }
      unfold JsSet.size in *. cbn [JsSet.elements Datatypes.length]. destruct cleaned; lia.
  - rewrite (skipn_nth_error _ _ _ Hnth).
    assert (Hlt : index < List.length (tempFiles w))
      by (apply nth_error_Some; congruence).
    destruct (IH (S index) w c) as (w' & n & Hrun & Hl & Hf & Hs & Hn); [lia|].
    exists w', n. repeat split; try assumption;
      unfold JsSet.size in *; cbn [JsSet.elements Datatypes.length]; lia.
  - exists w, c. repeat split; lia.
Qed.

(** More fuel changes nothing once the loop has come to its end. *)
Lemma forOfTempFiles_more (fuel : nat) : forall fuel' index (w : World) c r,
  fuel <= fuel' ->
  forOfTempFiles fuel index w c = Some r -> forOfTempFiles fuel' index w c = Some r.
Proof.
  induction fuel as [|fuel IH]; intros fuel' index w c r Hle H; [discriminate|].
  destruct fuel' as [|fuel']; [lia|]. simpl in *.
  destruct (nth_error (tempFiles w) index) as [[p|]|]; [| |exact H].
  - destruct (cleanupSync w p) as [w1 cleaned]. apply IH; [lia|exact H].
  - apply IH; [lia|exact H].
Qed.

(** On a Set without repeated paths the loop over the live Set visits the
    paths tracked when it starts, each once and in order, although
    [cleanupSync] deletes from the Set under it. *)
Lemma forOfTempFiles_snapshot (fuel : nat) : forall (index : nat) (w : World) (c : nat),
  List.length (tempFiles w) - index < fuel ->
  NoDup (JsSet.elements (skipn index (tempFiles w))) ->
  forOfTempFiles fuel index w c
  = Some (fst (cleanupEach w (JsSet.elements (skipn index (tempFiles w)))),
          c + succeeded (snd (cleanupEach w (JsSet.elements (skipn index (tempFiles w)))))).
Proof.
  induction fuel as [|fuel IH]; intros index w c Hfuel Hnodup; [lia|].
  simpl. destruct (nth_error (tempFiles w) index) as [[p|]|] eqn:Hnth.
  - assert (Hlt : index < List.length (tempFiles w))
      by (apply nth_error_Some; congruence).
    rewrite (skipn_nth_error _ _ _ Hnth) in *.
    cbn [JsSet.elements cleanupEach] in *.
    inversion Hnodup as [|? ? Hp Hrest]; subst.
    pose proof (cleanupSync_state w p) as (Hd & _).
    pose proof (cleanupSync_length w p) as Hlen.
    destruct (cleanupSync w p) as [w1 cleaned]; cbn [fst snd] in *.
    assert (Hsame : skipn (S index) (tempFiles w1) = skipn (S index) (tempFiles w)).
    { rewrite Hd. destruct cleaned; [|reflexivity].
      rewrite JsSetFacts.skipn_delete. apply JsSetFacts.delete_absent.
      destruct (JsSet.has (skipn (S index) (tempFiles w)) p) eqn:Hhas; [|reflexivity].
      apply JsSetFacts.has_elements in Hhas. contradiction. }
    rewrite IH; [|lia|now rewrite Hsame].
    rewrite Hsame.
    destruct (cleanupEach w1 (JsSet.elements (skipn (S index) (tempFiles w))))
      as [w2 outcomes]; simpl.
    f_equal. f_equal. unfold succeeded. simpl.
    destruct cleaned; simpl; [|reflexivity].
    destruct (bool_dec true true); [lia|congruence].
  - assert (Hlt : index < List.length (tempFiles w))
      by (apply nth_error_Some; congruence).
    rewrite (skipn_nth_error _ _ _ Hnth) in *.
    cbn [JsSet.elements] in *.
    apply IH; [lia|assumption].
  - rewrite (skipn_nth_error_None _ _ Hnth). simpl. f_equal. f_equal.
    unfold succeeded. simpl. lia.
Qed.

(** [cleanupAllSync] returns: the loop ends within the turns it is given,
    and any larger number of turns gives the same result. *)
Lemma cleanupAllSync_returns (w : World) (fuel : nat) :
  List.length (tempFiles w) < fuel ->
  cleanupAllSync_within fuel w = Some (cleanupAllSync w).
Proof.
  intros Hfuel. unfold cleanupAllSync, cleanupAllSync_within.
  destruct (forOfTempFiles_ends (S (List.length (tempFiles w))) 0 w 0)
    as (w' & n & Hrun & _); [lia|].
  assert (Hle : S (List.length (tempFiles w)) <= fuel) by lia.
  rewrite (forOfTempFiles_more _ fuel _ _ _ _ Hle Hrun), Hrun.
  reflexivity.
Qed.

(** What [cleanupAllSync] leaves behind. *)
Lemma cleanupAllSync_state (w : World) :
  getTempFiles (fst (cleanupAllSync w)) = []
  /\ tempFiles (fst (cleanupAllSync w)) = JsSet.clear (tempFiles w)
  /\ cleanupRegistered (fst (cleanupAllSync w)) = cleanupRegistered w
  /\ listeners (fst (cleanupAllSync w)) = listeners w
  /\ snd (cleanupAllSync w) <= List.length (getTempFiles w).
Proof.
  unfold cleanupAllSync, cleanupAllSync_within.
  destruct (forOfTempFiles_ends (S (List.length (tempFiles w))) 0 w 0)
    as (w' & n & Hrun & Hlen & Hflag & Hlis & Hn); [lia|].
  rewrite Hrun. unfold getTempFiles. simpl.
  repeat split; try assumption.
  - apply JsSetFacts.elements_clear.
  - now apply JsSetFacts.clear_same_length.
  - unfold JsSet.size in Hn. simpl in Hn. lia.
Qed.

End CleanupFacts.

(** ** The calls and the module's state *)

Section CallFacts.

Context {E : Type} {platform : Platform E}.

Notation World := (World E).

#[local] Open Scope list_scope.

Lemma sameModuleState_refl (w : World) : sameModuleState w w.
Proof. repeat split. Qed.

Lemma sameModuleState_set_env (w : World) (e : E) : sameModuleState w (set_env w e).
Proof. repeat split. Qed.

#[local] Hint Resolve sameModuleState_refl sameModuleState_set_env : creates.
#[local] Hint Constructors Creates : creates.

(** Takes the body of a creating function apart along its branches. *)
Ltac branches :=
  repeat match goal with
         | |- Creates _ _ (match ?x with _ => _ end) => destruct x eqn:?
         | |- Creates _ _ (if ?b then _ else _) => destruct b eqn:?
         end;
  auto with creates.

Lemma tempWriteSync_creates (w : World) (content extension : Js.value) (options : Options) :
  Creates (orDefault (cleanup options) true) w (tempWriteSync w content extension options).
Proof. unfold tempWriteSync. branches. Qed.

Lemma tempDirSync_creates (w : World) (options : Options) :
  Creates (orDefault (cleanup options) true) w (tempDirSync w options).
Proof. unfold tempDirSync. branches. Qed.

Lemma tempWritePatternSync_creates (w : World) (content : Js.value) (pattern : string)
      (options : Options) :
  Creates (orDefault (cleanup options) true) w (tempWritePatternSync w content pattern options).
Proof. unfold tempWritePatternSync. branches. Qed.

Lemma tempWriteJsonSync_creates (w : World) (obj : Js.value) (options : Options) :
  Creates (orDefault (cleanup options) true) w (tempWriteJsonSync w obj options).
Proof.
  unfold tempWriteJsonSync.
  destruct (_ || _); [auto with creates|].
  destruct (JSON_stringify obj); [apply tempWriteSync_creates|auto with creates].
Qed.

Lemma tempWriteCsvSync_creates (w : World) (data : Js.value) (options : Options) :
  Creates (orDefault (cleanup options) true) w (tempWriteCsvSync w data options).
Proof.
  unfold tempWriteCsvSync. destruct data; auto with creates.
  destruct (csvContent _ _); [apply tempWriteSync_creates|auto with creates].
Qed.

Lemma tempCopySync_creates (w : World) (sourcePath : string) (extension : Js.value)
      (options : Options) :
  Creates (orDefault (cleanup options) true) w (tempCopySync w sourcePath extension options).
Proof.
  unfold tempCopySync. destruct (negb _); [auto with creates|].
  destruct (fs_readFileSync _ _); [apply tempWriteSync_creates|auto with creates].
Qed.

(** Every call either creates or releases. *)
Lemma step_effect (w : World) (c : Call) :
  (exists r, Creates (wantsCleanup c) w r /\ step w c = returnPath r)
  \/ (wantsCleanup c = false /\ Releases w (fst (step w c))).
Proof.
  destruct c; simpl.
  - left. eexists. split; [apply tempWriteSync_creates|reflexivity].
  - left. eexists. split; [apply tempWriteJsonSync_creates|reflexivity].
  - left. eexists. split; [apply tempWriteCsvSync_creates|reflexivity].
  - left. eexists. split; [apply tempDirSync_creates|reflexivity].
  - left. eexists. split; [apply tempCopySync_creates|reflexivity].
  - left. eexists. split; [apply tempWritePatternSync_creates|reflexivity].
  - right. split; [reflexivity|].
    pose proof (cleanupSync_state w filePath) as (Hd & Hf & Hl).
    destruct (cleanupSync w filePath) as [w' cleaned]; simpl in *.
    repeat split; try assumption.
    destruct cleaned; [right; left; eauto|left; assumption].
  - right. split; [reflexivity|].
    pose proof (cleanupAllSync_state w) as (_ & Hd & Hf & Hl & _).
    destruct (cleanupAllSync w) as [w' n]; simpl in *.
    repeat split; auto.
  - right. repeat split. now left.
  - right. repeat split. right. left. now exists filePath.
  - right. repeat split. now left.
Qed.

Lemma registerCleanup_state (w : World) :
  tempFiles (registerCleanup w) = tempFiles w
  /\ cleanupRegistered (registerCleanup w) = true
  /\ listeners (registerCleanup w)
     = (if cleanupRegistered w then listeners w else listeners w ++ exitHandlers).
Proof. unfold registerCleanup. destruct (cleanupRegistered w) eqn:H; simpl; auto. Qed.

Lemma registerCleanup_hooks (w : World) :
  hooksMatchFlag w ->
  cleanupRegistered (registerCleanup w) = true /\ listeners (registerCleanup w) = exitHandlers.
Proof.
  intros [[Hf Hl]|[Hf Hl]]; unfold registerCleanup; rewrite Hf; simpl; auto.
  now rewrite Hl.
Qed.

(** The listeners change only in a call that returns a path it has just
    tracked, and only when none had been attached. *)
Lemma Creates_listeners (tracking : bool) (w w' : World) (r : Js.completion string) :
  Creates tracking w (w', r) ->
  listeners w' = listeners w
  \/ (cleanupRegistered w = false
      /\ listeners w' = listeners w ++ exitHandlers
      /\ tracking = true
      /\ exists p, r = Js.Normal p /\ isTempFile w' p = true).
Proof.
  intros H. inversion H as [? ? Hs|? ? ? Hs|e p Ht]; subst.
  - left. apply Hs.
  - left. apply Hs.
  - pose proof (registerCleanup_state (set_env w e)) as (Hd & Hf & Hl).
    simpl in *. destruct (cleanupRegistered w) eqn:Hreg; [left; exact Hl|].
    right. repeat split; [exact Hl|].
    exists p. split; [reflexivity|].
    unfold isTempFile. simpl. rewrite JsSetFacts.has_add, String.eqb_refl. reflexivity.
Qed.

Lemma Creates_hooksMatchFlag (tracking : bool) (w : World) r :
  Creates tracking w r -> hooksMatchFlag w -> hooksMatchFlag (fst r).
Proof.
  intros H Hw. inversion H as [? ? Hs|? ? ? Hs|e p Ht]; subst; simpl.
  - destruct Hs as (_ & Hf & Hl & _). unfold hooksMatchFlag. now rewrite Hf, Hl.
  - destruct Hs as (_ & Hf & Hl & _). unfold hooksMatchFlag. now rewrite Hf, Hl.
  - right. apply (registerCleanup_hooks (set_env w e)). exact Hw.
Qed.

Lemma Creates_trackedImpliesHooks (tracking : bool) (w : World) r :
  Creates tracking w r -> hooksMatchFlag w -> trackedImpliesHooks w ->
  trackedImpliesHooks (fst r).
Proof.
  intros H Hm Hw. inversion H as [? ? Hs|? ? ? Hs|e p Ht]; subst; simpl.
  - destruct Hs as (Hd & Hf & Hl & _).
    unfold trackedImpliesHooks, getTempFiles. now rewrite Hd, Hf, Hl.
  - destruct Hs as (Hd & Hf & Hl & _).
    unfold trackedImpliesHooks, getTempFiles. now rewrite Hd, Hf, Hl.
  - right. apply (registerCleanup_hooks (set_env w e)). exact Hm.
Qed.

Lemma Creates_NoDup (tracking : bool) (w : World) r :
  Creates tracking w r -> NoDup (getTempFiles w) -> NoDup (getTempFiles (fst r)).
Proof.
  intros H Hw. inversion H as [? ? Hs|? ? ? Hs|e p Ht]; subst; simpl.
  - destruct Hs as (Hd & _). unfold getTempFiles. now rewrite Hd.
  - destruct Hs as (Hd & _). unfold getTempFiles. now rewrite Hd.
  - unfold getTempFiles. simpl.
    destruct (registerCleanup_state (set_env w e)) as (-> & _).
    now apply JsSetFacts.NoDup_add.
Qed.

Lemma Creates_untracked (w : World) r : Creates false w r -> sameModuleState w (fst r).
Proof.
  intros H. inversion H as [? ? Hs|? ? ? Hs|e p Ht]; subst; simpl; auto. discriminate.
Qed.

Lemma Releases_hooksMatchFlag (w w' : World) :
  Releases w w' -> hooksMatchFlag w -> hooksMatchFlag w'.
Proof. intros (Hf & Hl & _). unfold hooksMatchFlag. now rewrite Hf, Hl. Qed.

Lemma Releases_tracked (w w' : World) (p : string) :
  Releases w w' -> isTempFile w' p = true -> isTempFile w p = true.
Proof.
  unfold isTempFile. intros (_ & _ & [Hd|[[q Hd]|Hd]]) H; rewrite Hd in H.
  - exact H.
  - rewrite JsSetFacts.has_delete in H. apply andb_true_iff in H. tauto.
  - now rewrite JsSetFacts.has_clear in H.
Qed.

Lemma Releases_trackedImpliesHooks (w w' : World) :
  Releases w w' -> trackedImpliesHooks w -> trackedImpliesHooks w'.
Proof.
  intros HR [Hnil|Hh].
  - left. destruct (getTempFiles w') as [|p l] eqn:Hl; [reflexivity|].
    assert (Hin : isTempFile w' p = true).
    { apply JsSetFacts.has_elements. fold (getTempFiles w'). rewrite Hl. now left. }
    apply (Releases_tracked _ _ _ HR) in Hin.
    apply JsSetFacts.has_elements in Hin. fold (getTempFiles w) in Hin.
    rewrite Hnil in Hin. destruct Hin.
  - right. destruct HR as (Hf & Hl & _). now rewrite Hf, Hl.
Qed.

Lemma Releases_NoDup (w w' : World) :
  Releases w w' -> NoDup (getTempFiles w) -> NoDup (getTempFiles w').
Proof.
  unfold getTempFiles. intros (_ & _ & [Hd|[[q Hd]|Hd]]) H; rewrite Hd.
  - exact H.
  - now apply JsSetFacts.NoDup_delete.
  - rewrite JsSetFacts.elements_clear. constructor.
Qed.

Lemma loaded_wellKept (e : E) : wellKept (loaded e).
Proof.
  repeat split; [left; split; reflexivity|left; reflexivity|constructor].
Qed.

Lemma step_wellKept (w : World) (c : Call) : wellKept w -> wellKept (fst (step w c)).
Proof.
  intros (Hm & Ht & Hn).
  destruct (step_effect w c) as [(r & Hc & ->)|(_ & HR)].
  - assert (Hfst : fst (returnPath r) = fst r) by (destruct r as [? []]; reflexivity).
    rewrite Hfst. repeat split;
      eauto using Creates_hooksMatchFlag, Creates_trackedImpliesHooks, Creates_NoDup.
  - repeat split;
      eauto using Releases_hooksMatchFlag, Releases_trackedImpliesHooks, Releases_NoDup.
Qed.

Lemma run_wellKept (calls : list Call) : forall w : World,
  wellKept w -> wellKept (run w calls).
Proof.
  induction calls as [|c calls IH]; intros w Hw; [exact Hw|].
  simpl. apply IH. now apply step_wellKept.
Qed.

End CallFacts.

(** ** Strings: the first occurrence and its replacement *)

Module StringFacts.

Lemma append_nil_r (s : string) : s ++ EmptyString = s.
Proof. induction s; simpl; congruence. Qed.

Lemma append_assoc (a b c : string) : (a ++ b) ++ c = a ++ b ++ c.
Proof. induction a; simpl; congruence. Qed.

Lemma length_append (a b : string) :
  String.length (a ++ b) = String.length a + String.length b.
Proof. induction a; simpl; congruence. Qed.

Lemma prefix_append (p b : string) : String.prefix p (p ++ b) = true.
Proof.
  induction p as [|c p IH]; simpl; [now destruct b|].
  destruct (ascii_dec c c); [exact IH|congruence].
Qed.

Lemma prefix_split (p s : string) : String.prefix p s = true -> exists b, s = p ++ b.
Proof.
  revert s. induction p as [|c p IH]; intros s H; [now exists s|].
  destruct s as [|c' s]; simpl in H; [discriminate|].
  destruct (ascii_dec c c') as [->|]; [|discriminate].
  destruct (IH _ H) as [b ->]. now exists b.
Qed.

Lemma indexOf_unfold (s pat : string) :
  Js.indexOf s pat
  = if String.prefix pat s then Some 0
    else match s with
         | EmptyString => None
         | String _ rest => option_map S (Js.indexOf rest pat)
         end.
Proof. destruct s; reflexivity. Qed.

Lemma indexOf_Some (pat : string) : forall (s : string) (i : nat),
  Js.indexOf s pat = Some i ->
  exists a b,
    s = a ++ pat ++ b /\ String.length a = i
    /\ forall a' b', s = a' ++ pat ++ b' -> i <= String.length a'.
Proof.
  induction s as [|c s IH]; intros i H; rewrite indexOf_unfold in H.
  - destruct (String.prefix pat EmptyString) eqn:Hp; [|discriminate].
    inversion H; subst. destruct (prefix_split _ _ Hp) as [b Hb].
    exists EmptyString, b. repeat split; [exact Hb|]. intros; lia.
  - destruct (String.prefix pat (String c s)) eqn:Hp.
    + inversion H; subst. destruct (prefix_split _ _ Hp) as [b Hb].
      exists EmptyString, b. repeat split; [exact Hb|]. intros; lia.
    + destruct (Js.indexOf s pat) as [j|] eqn:Hj; [|discriminate].
      simpl in H. inversion H; subst.
      destruct (IH j eq_refl) as (a & b & -> & Hlen & Hmin).
      exists (String c a), b. repeat split; [simpl; congruence|].
      intros [|c' a'] b' Heq; simpl in Heq.
      * rewrite Heq, prefix_append in Hp. discriminate.
      * inversion Heq as [[Hc Hrest]]. simpl. apply le_n_S. eapply Hmin. exact Hrest.
Qed.

Lemma indexOf_None (pat : string) : forall (s : string),
  Js.indexOf s pat = None -> forall a b, s <> a ++ pat ++ b.
Proof.
  induction s as [|c s IH]; intros H a b Heq; rewrite indexOf_unfold in H.
  - destruct (String.prefix pat EmptyString) eqn:Hp; [discriminate|].
    destruct a; [|discriminate]. simpl in Heq.
    rewrite Heq, prefix_append in Hp. discriminate.
  - destruct (String.prefix pat (String c s)) eqn:Hp; [discriminate|].
    destruct (Js.indexOf s pat) eqn:Hj; [discriminate|].
    destruct a as [|c' a]; simpl in Heq.
    + rewrite Heq, prefix_append in Hp. discriminate.
    + inversion Heq as [[Hc Hrest]]. exact (IH eq_refl _ _ Hrest).
Qed.

Lemma substring_all (s : string) : String.substring 0 (String.length s) s = s.
Proof. induction s; simpl; congruence. Qed.

Lemma substring_head (a x : string) : String.substring 0 (String.length a) (a ++ x) = a.
Proof.
  induction a as [|c a IH]; simpl; [now destruct x|congruence].
Qed.

Lemma substring_tail (a x : string) (n m : nat) :
  String.substring (String.length a + n) m (a ++ x) = String.substring n m x.
Proof. induction a; simpl; auto. Qed.

Lemma getSubstitution_dollarFree (matched before after : string) : forall r : string,
  dollarFree r = true -> Js.getSubstitution matched before after r = r.
Proof.
  fix IH 1. intros [|c r] H; [reflexivity|].
  simpl in H. apply andb_true_iff in H as [Hc Hr].
  destruct (Ascii.eqb_spec c "$") as [->|Hne]; [discriminate|].
  assert (Hstep : Js.getSubstitution matched before after (String c r)
                  = String c (Js.getSubstitution matched before after r)).
  { destruct c as [[] [] [] [] [] [] [] []]; try reflexivity. now elim Hne. }
  rewrite Hstep. f_equal. apply IH. exact Hr.
Qed.

(** [replace] with a replacement free of dollar signs puts it in the place
    of the first occurrence and touches nothing else. *)
Lemma replace_FirstReplaced (s pat r : string) :
  dollarFree r = true -> FirstReplaced pat r s (Js.replace s pat r).
Proof.
  intros Hr. unfold Js.replace. destruct (Js.indexOf s pat) as [i|] eqn:Hi.
  - destruct (indexOf_Some _ _ _ Hi) as (a & b & Hs & Hlen & Hmin).
    rewrite getSubstitution_dollarFree by exact Hr.
    assert (Hbefore : String.substring 0 i s = a)
      by (subst i s; apply substring_head).
    assert (Hafter : String.substring (i + String.length pat)
                       (String.length s - (i + String.length pat)) s = b).
    { subst i s. rewrite <- append_assoc, <- length_append.
      rewrite <- (Nat.add_0_r (String.length (a ++ pat))) at 1.
      rewrite substring_tail. rewrite length_append at 1.
      replace (String.length (a ++ pat) + String.length b - String.length (a ++ pat))
        with (String.length b) by lia.
      apply substring_all. }
    rewrite Hbefore, Hafter. subst i. apply replaced_first; assumption.
  - apply replaced_none. now apply indexOf_None.
Qed.

Lemma replace_absent (s pat r : string) :
  (forall a b, s <> a ++ pat ++ b) -> Js.replace s pat r = s.
Proof.
  intros H. unfold Js.replace. destruct (Js.indexOf s pat) as [i|] eqn:Hi; [|reflexivity].
  destruct (indexOf_Some _ _ _ Hi) as (a & b & Hs & _). now elim (H a b).
Qed.

Lemma digit_dollarFree (d : N) : Ascii.eqb (Js.digit d) "$" = false.
Proof.
  unfold Js.digit. destruct (String.get (N.to_nat d) Js.digits36) as [c|] eqn:H;
    [|reflexivity].
  revert H. generalize (N.to_nat d). intros n. unfold Js.digits36.
  do 36 (destruct n as [|n]; [intros H; inversion H; reflexivity|]).
  simpl. discriminate.
Qed.

Lemma radix36_dollarFree (fuel : nat) : forall (n : N) (acc : string),
  dollarFree acc = true -> dollarFree (Js.radix36 fuel n acc) = true.
Proof.
  induction fuel as [|fuel IH]; intros n acc H; simpl; [exact H|].
  assert (dollarFree (String (Js.digit (n mod 36)) acc) = true)
    by (simpl; now rewrite digit_dollarFree).
  destruct (n / 36 =? 0)%N; auto.
Qed.

Lemma toString36_dollarFree (n : N) : dollarFree (Js.toString36 n) = true.
Proof. unfold Js.toString36. now apply radix36_dollarFree. Qed.

Lemma toHex_dollarFree (bytes : list Byte.byte) : dollarFree (Js.toHex bytes) = true.
Proof.
  induction bytes as [|b bytes IH]; [reflexivity|].
  cbn [Js.toHex dollarFree]. now rewrite !digit_dollarFree.
Qed.

End StringFacts.

(** ** Base 36: the numeral stands for the number

    so the turns [toString36] allows [radix36] are enough. *)

Module RadixFacts.
#[local] Open Scope N_scope.

Lemma digitValue_digit (d : N) : d < 36 -> digitValue (Js.digit d) = d.
Proof.
  intros H. rewrite <- (N2Nat.id d) at 2.
  assert (Hn : (N.to_nat d < 36)%nat) by lia.
  unfold Js.digit. revert Hn. generalize (N.to_nat d). intros n Hn.
  do 36 (destruct n as [|n]; [reflexivity|]). lia.
Qed.

Lemma size_div36 (n : N) : n <> 0 -> N.size (n / 36) < N.size n.
Proof.
  intros Hn. destruct (N.eq_dec (n / 36) 0) as [->|Hq].
  - rewrite (N.size_log2 n) by exact Hn. simpl. lia.
  - rewrite !N.size_log2 by assumption.
    apply -> N.succ_lt_mono.
    assert (Hle : 2 * (n / 36) <= n).
    { pose proof (N.Div0.mul_div_le n 36). lia. }
    apply N.log2_le_mono in Hle.
    assert (Hpos : 0 < n / 36) by (apply N.neq_0_lt_0; exact Hq).
    rewrite (N.log2_double _ Hpos) in Hle. lia.
Qed.

Lemma radix36_value (fuel : nat) : forall (n : N) (acc : string),
  (N.to_nat (N.size n) < fuel)%nat ->
  value36 (Js.radix36 fuel n acc)
  = n * 36 ^ N.of_nat (String.length acc) + value36 acc.
Proof.
  induction fuel as [|fuel IH]; intros n acc Hfuel; [lia|].
  simpl Js.radix36.
  assert (Hmod : n mod 36 < 36) by (apply N.mod_lt; lia).
  pose proof (N.div_mod n 36 ltac:(lia)) as Hdiv.
  destruct (N.eqb_spec (n / 36) 0) as [Hz|Hnz].
  - simpl value36. rewrite digitValue_digit by exact Hmod.
    rewrite Hz in Hdiv. rewrite Hdiv at 2. reflexivity.
  - rewrite IH.
    + simpl value36. simpl String.length. rewrite digitValue_digit by exact Hmod.
      rewrite Nat2N.inj_succ, N.pow_succ_r'.
      generalize (36 ^ N.of_nat (String.length acc)). intros k.
      rewrite Hdiv at 3. lia.
    + assert (n <> 0) by (intros ->; now apply Hnz).
      pose proof (size_div36 n H). lia.
Qed.

(** Reading [toString36 n] back gives [n]. *)
Lemma toString36_value (n : N) : value36 (Js.toString36 n) = n.
Proof.
  unfold Js.toString36. rewrite radix36_value by lia. simpl. lia.
Qed.

End RadixFacts.

(** ** CSV: what can be thrown *)

Module CsvFacts.

Section WithPlatform.

Context {E : Type} {platform : Platform E}.

Lemma getOwn_throws (v : Js.value) (key : string) (error : Js.error) :
  Js.getOwn v key = Js.Throw error -> Js.name error = "TypeError".
Proof.
  destruct v; simpl; try discriminate.
  - intros H; inversion H; reflexivity.
  - intros H; inversion H; reflexivity.
  - destruct (String.eqb key "length"); [discriminate|].
    destruct (Js.arrayIndex _ _); discriminate.
  - destruct (String.eqb key "length"); [discriminate|].
    destruct (Js.arrayIndex _ _); discriminate.
Qed.

Lemma get_throws (v : Js.value) (key : string) (error : Js.error) :
  readProperty v key = Js.Throw error -> Js.name error = "TypeError".
Proof.
  unfold readProperty. destruct (Js.getOwn v key) as [[x|]|error'] eqn:Hown;
    try discriminate.
  intros H; inversion H; subst. eapply getOwn_throws; eassumption.
Qed.

Lemma keys_throws (v : Js.value) (error : Js.error) :
  Js.keys v = Js.Throw error -> Js.name error = "TypeError".
Proof. destruct v; simpl; try discriminate; intros H; inversion H; reflexivity. Qed.

Lemma csvArrayRow_throws (delimiter : string) (row : Js.value) (error : Js.error) :
  csvArrayRow delimiter row = Js.Throw error -> Js.name error = "TypeError".
Proof. destruct row; simpl; try discriminate; intros H; inversion H; reflexivity. Qed.

Lemma csvObjectCells_throws (row : Js.value) (error : Js.error) :
  forall headers, csvObjectCells headers row = Js.Throw error -> Js.name error = "TypeError".
Proof.
  induction headers as [|h headers IH]; simpl; [discriminate|].
  destruct (readProperty row h) eqn:Hget.
  - destruct (csvObjectCells headers row); [discriminate|].
    intros H; inversion H; subst. now apply IH.
  - intros H; inversion H; subst. eapply get_throws; eassumption.
Qed.

Lemma csvObjectRow_throws (delimiter : string) (headers : list string) (row : Js.value)
      (error : Js.error) :
  csvObjectRow delimiter headers row = Js.Throw error -> Js.name error = "TypeError".
Proof.
  unfold csvObjectRow. destruct (csvObjectCells headers row) eqn:H; [discriminate|].
  intros H'; inversion H'; subst. eapply csvObjectCells_throws; eassumption.
Qed.

Lemma mapRows_throws (f : Js.value -> Js.completion string) (error : Js.error) :
  (forall row e, f row = Js.Throw e -> Js.name e = "TypeError") ->
  forall rows, mapRows f rows = Js.Throw error -> Js.name error = "TypeError".
Proof.
  intros Hf. induction rows as [|row rows IH]; simpl; [discriminate|].
  destruct (f row) eqn:Hrow.
  - destruct (mapRows f rows); [discriminate|].
    intros H; inversion H; subst. now apply IH.
  - intros H; inversion H; subst. eapply Hf; eassumption.
Qed.

(** [csvContent] throws the format error exactly on a first row that is
    neither an array nor an object; whatever else it throws is a
    [TypeError] of the runtime. *)
Lemma csvContent_throws (delimiter : string) (rows : list Js.value) (error : Js.error) :
  csvContent delimiter rows = Js.Throw error ->
  Js.name error = "TypeError"
  \/ (error = Js.Error "Invalid CSV data format"
      /\ exists first rest, rows = first :: rest /\ Js.typeof first <> "object").
Proof.
  unfold csvContent. destruct rows as [|first rest]; [discriminate|].
  destruct (Js.isArray first) eqn:Harr.
  - destruct (mapRows _ _) eqn:Hmap; [discriminate|].
    intros H; inversion H; subst. left.
    eapply mapRows_throws; [|eassumption]. apply csvArrayRow_throws.
  - destruct (String.eqb_spec (Js.typeof first) "object") as [Hobj|Hobj].
    + destruct (Js.keys first) as [headers|] eqn:Hkeys.
      * destruct (mapRows _ _) eqn:Hmap; [discriminate|].
        intros H; inversion H; subst. left.
        eapply mapRows_throws; [|eassumption]. apply csvObjectRow_throws.
      * intros H; inversion H; subst. left. eapply keys_throws; eassumption.
    + intros H; inversion H; subst. right. split; [reflexivity|eauto].
Qed.

Lemma csvContent_scalar_first (delimiter : string) (first : Js.value) (rest : list Js.value) :
  Js.typeof first <> "object" ->
  csvContent delimiter (first :: rest) = Js.Throw (Js.Error "Invalid CSV data format").
Proof.
  intros H. unfold csvContent.
  destruct first; simpl in *; try reflexivity; now elim H.
Qed.

End WithPlatform.

End CsvFacts.

(** ** The simulated platform keeps the promise of removal *)

Module SimFacts.
Import Sim.

Lemma find_without (p : string) (l : list (string * node)) : find p (without p l) = None.
Proof.
  unfold without. induction l as [|[q n] l IH]; simpl; [reflexivity|].
  destruct (String.eqb_spec q p) as [->|Hne]; simpl; [exact IH|].
  destruct (String.eqb_spec q p); [contradiction|exact IH].
Qed.

Lemma find_withoutTree (p : string) (l : list (string * node)) :
  find p (withoutTree p l) = None.
Proof.
  unfold withoutTree. induction l as [|[q n] l IH]; simpl; [reflexivity|].
  destruct (String.eqb_spec q p) as [->|Hne]; simpl; [exact IH|].
  destruct (negb (String.prefix (p ++ "/") q)); simpl; [|exact IH].
  destruct (String.eqb_spec q p); [contradiction|exact IH].
Qed.

Lemma sim_unlinkSync_removes (e : env) (p : string) (e' : env) (u : unit) :
  unlinkSync e p = (e', Js.Normal u) -> existsSync e' p = false.
Proof.
  unfold unlinkSync, existsSync. destruct (isDenied e p); [discriminate|].
  destruct (find p (nodes e)) as [[content mode|]|]; try discriminate.
  intros H; inversion H; subst. simpl. now rewrite find_without.
Qed.

Lemma sim_rmSync_removes (e : env) (p : string) (e' : env) (u : unit) :
  rmSync e p = (e', Js.Normal u) -> existsSync e' p = false.
Proof.
  unfold rmSync, existsSync. destruct (isDenied e p); [discriminate|].
  intros H; inversion H; subst. simpl. now rewrite find_withoutTree.
Qed.

End SimFacts.

#[export] Instance SimRemoves : Removes SimPlatform := {
  unlinkSync_removes := SimFacts.sim_unlinkSync_removes;
  rmSync_removes := SimFacts.sim_rmSync_removes
}.

(** ** Single cleanup *)

Section CleanupOne.

Context {E : Type} {platform : Platform E}.

Notation World := (World E).

#[local] Open Scope list_scope.

Lemma set_tempFiles_same (w : World) : set_tempFiles w (tempFiles w) = w.
Proof. now destruct w. Qed.

(** [cleanupSync] on a path that is not there: nothing is removed, the
    path is dropped from the Set, and the answer is [true]. *)
Lemma cleanupSync_absent (w : World) (p : string) :
  fs_existsSync (env w) p = false ->
  cleanupSync w p = (excludeFromCleanup w p, true).
Proof.
  intros H. unfold cleanupSync, remove. rewrite H.
  unfold excludeFromCleanup. now destruct w.
Qed.

(** After a removal that returned there is nothing at the path. *)
Lemma remove_removes {contract : Removes platform} (e e' : E) (p : string) (u : unit) :
  remove e p = (e', Js.Normal u) -> fs_existsSync e' p = false.
Proof.
  unfold remove. destruct (fs_existsSync e p) eqn:Hex.
  - destruct (fs_statSync_isDirectory e p) as [[|]|]; [| |discriminate].
    + apply rmSync_removes.
    + apply unlinkSync_removes.
  - intros H; inversion H; subst. exact Hex.
Qed.


(** C4.  On a path that does not exist [cleanupSync] returns [true]: it
    has no way to throw, removes nothing and prints nothing.  And once a
    cleanup of a path has returned [true], a second cleanup of the same
    path returns [true] again and changes nothing at all, on any file
    system whose removals remove. *)
Theorem cleanupSync_missing_path_succeeds {contract : Removes platform}
        (w : World) (p : string) :
  (fs_existsSync (env w) p = false ->
   cleanupSync w p = (excludeFromCleanup w p, true)
   /\ env (fst (cleanupSync w p)) = env w
   /\ console (fst (cleanupSync w p)) = console w)
  /\ (forall w1, cleanupSync w p = (w1, true) -> cleanupSync w1 p = (w1, true)).
Proof.
  split.
  - intros H. rewrite (cleanupSync_absent w p H). repeat split.
  - intros w1 Hfirst. unfold cleanupSync in Hfirst.
    destruct (remove (env w) p) as [e [u|error]] eqn:Hrm; [|discriminate].
    inversion Hfirst; subst w1; clear Hfirst.
    apply remove_removes in Hrm.
    rewrite cleanupSync_absent by exact Hrm.
    unfold excludeFromCleanup, set_tempFiles, set_env. simpl.
    now rewrite JsSetFacts.delete_delete.
Qed.

End CleanupOne.


(** A file is written and tracked, cleaned up, and cleaned up again. *)
Lemma cleanupSync_missing_path_succeeds_witness :
  let w := fst (tempWriteSync Example.fresh (Js.Str "hello") (Js.Str "txt") noOptions) in
  let p := "/tmp/temp-loyw3v28-0a1b2c3d4e5f.txt" in
  fs_existsSync (env (fst (cleanupSync w p))) p = false
  /\ cleanupSync (fst (cleanupSync w p)) p = (fst (cleanupSync w p), true).
Proof.
  cbv zeta. split; [vm_compute; reflexivity|].
  apply (cleanupSync_missing_path_succeeds
           (fst (tempWriteSync Example.fresh (Js.Str "hello") (Js.Str "txt") noOptions))
           "/tmp/temp-loyw3v28-0a1b2c3d4e5f.txt").
  vm_compute. reflexivity.
Defined.

(** ** Bulk cleanup *)

Section CleanupAll.

Context {E : Type} {platform : Platform E}.

Notation World := (World E).

#[local] Open Scope list_scope.

Lemma cleanupEach_length (snapshot : list string) : forall w : World,
  List.length (snd (cleanupEach w snapshot)) = List.length snapshot.
Proof.
  induction snapshot as [|p rest IH]; intros w; simpl; [reflexivity|].
  destruct (cleanupSync w p) as [w1 cleaned].
  specialize (IH w1). destruct (cleanupEach w1 rest) as [w2 outcomes].
  simpl in *. congruence.
Qed.

Lemma succeeded_le (outcomes : list bool) : succeeded outcomes <= List.length outcomes.
Proof. apply count_occ_bound. Qed.

Lemma cleanupSync_set_tempFiles (w : World) (d : JsSet.t) (p : string) :
  cleanupSync (set_tempFiles w d) p
  = (set_tempFiles (fst (cleanupSync w p))
       (if snd (cleanupSync w p) then JsSet.delete d p else d),
     snd (cleanupSync w p)).
Proof.
  unfold cleanupSync. simpl. destruct (remove (env w) p) as [e [u|error]]; reflexivity.
Qed.

(** On a drained registry the attempts go as on the full one; only the
    Set differs, and it stays drained. *)
Lemma cleanupEach_drained (d : JsSet.t) (snapshot : list string) : forall w : World,
  JsSet.elements d = [] ->
  cleanupEach (set_tempFiles w d) snapshot
  = (set_tempFiles (fst (cleanupEach w snapshot)) d, snd (cleanupEach w snapshot)).
Proof.
  induction snapshot as [|p rest IH]; intros w Hd; simpl; [reflexivity|].
  rewrite cleanupSync_set_tempFiles.
  replace (if snd (cleanupSync w p) then JsSet.delete d p else d) with d.
  - destruct (cleanupSync w p) as [w1 cleaned]. simpl. rewrite (IH w1 Hd).
    destruct (cleanupEach w1 rest) as [w2 outcomes]. reflexivity.
  - destruct (snd (cleanupSync w p)); [|reflexivity].
    symmetry. apply JsSetFacts.delete_absent. now apply JsSetFacts.elements_nil_has.
Qed.

Lemma cleanupEach_SetData_length (snapshot : list string) : forall w : World,
  List.length (tempFiles (fst (cleanupEach w snapshot))) = List.length (tempFiles w).
Proof.
  induction snapshot as [|p rest IH]; intros w; simpl; [reflexivity|].
  pose proof (cleanupSync_length w p) as Hlen.
  destruct (cleanupSync w p) as [w1 cleaned].
  specialize (IH w1). destruct (cleanupEach w1 rest) as [w2 outcomes].
  simpl in *. congruence.
Qed.

(** With nothing tracked the bulk cleanup attempts nothing. *)
Lemma cleanupAllSync_idle (w : World) :
  getTempFiles w = [] ->
  cleanupAllSync w = (set_tempFiles w (JsSet.clear (tempFiles w)), 0).
Proof.
  intros Hnil. unfold cleanupAllSync, cleanupAllSync_within.
  rewrite forOfTempFiles_snapshot; [|lia|].
  - change (skipn 0 (tempFiles w)) with (tempFiles w).
    fold (getTempFiles w). rewrite Hnil. reflexivity.
  - change (skipn 0 (tempFiles w)) with (tempFiles w).
    fold (getTempFiles w). rewrite Hnil. constructor.
Qed.

(** C2.  On a Set without repeated paths, [cleanupAllSync] returns, and
    what it returns is the number of tracked paths for which
    [cleanupSync] answered [true] -- not the number of paths attempted,
    which is the number of outcomes; result and final state are those of
    draining the registry and cleaning each path of the snapshot in turn;
    no path is tracked afterwards; and a second call returns 0 and
    changes nothing. *)
Theorem cleanupAllSync_counts_successes (w : World) :
  NoDup (getTempFiles w) ->
  cleanupAllSync_within (S (List.length (tempFiles w))) w = Some (cleanupAllSync w)
  /\ snd (cleanupAllSync w) = succeeded (snd (cleanupEach w (getTempFiles w)))
  /\ List.length (snd (cleanupEach w (getTempFiles w))) = List.length (getTempFiles w)
  /\ cleanupAllSync w = drainThenCleanup w
  /\ getTempFiles (fst (cleanupAllSync w)) = []
  /\ cleanupAllSync (fst (cleanupAllSync w)) = (fst (cleanupAllSync w), 0).
Proof.
  intros Hnodup.
  split; [apply cleanupAllSync_returns; lia|].
  pose proof (cleanupAllSync_state w) as (Hnil & Hset & _).
  assert (Hrun : cleanupAllSync w
                 = (set_tempFiles (fst (cleanupEach w (getTempFiles w)))
                      (JsSet.clear (tempFiles (fst (cleanupEach w (getTempFiles w))))),
                    succeeded (snd (cleanupEach w (getTempFiles w))))).
  { unfold cleanupAllSync, cleanupAllSync_within.
    rewrite forOfTempFiles_snapshot; [reflexivity|lia|exact Hnodup]. }
  split; [now rewrite Hrun|].
  split; [apply cleanupEach_length|].
  split.
  { rewrite Hrun. unfold drainThenCleanup.
    rewrite cleanupEach_drained by apply JsSetFacts.elements_clear.
    f_equal. unfold set_tempFiles. simpl. f_equal.
    apply JsSetFacts.clear_same_length, cleanupEach_SetData_length. }
  split; [exact Hnil|].
  rewrite (cleanupAllSync_idle _ Hnil), Hset, JsSetFacts.clear_clear, <- Hset.
  now rewrite set_tempFiles_same.
Qed.

End CleanupAll.

(** Two tracked files, one of them stuck: one success out of two attempts. *)
Lemma cleanupAllSync_counts_successes_witness :
  NoDup (getTempFiles Example.stuck)
  /\ snd (cleanupAllSync Example.stuck) = 1
  /\ snd (cleanupEach Example.stuck (getTempFiles Example.stuck)) = [false; true]
  /\ cleanupAllSync (fst (cleanupAllSync Example.stuck))
     = (fst (cleanupAllSync Example.stuck), 0).
Proof.
  assert (Hnodup : NoDup (getTempFiles Example.stuck)).
  { vm_compute. repeat constructor; simpl; intuition discriminate. }
  pose proof (cleanupAllSync_counts_successes Example.stuck Hnodup)
    as (_ & Hcount & _ & _ & _ & Hagain).
  split; [exact Hnodup|]. split; [rewrite Hcount; vm_compute; reflexivity|].
  split; [vm_compute; reflexivity|exact Hagain].
Defined.

(** C10.  Whatever the state, [cleanupAllSync] returns and leaves no path
    tracked, and its count is at most the number of paths that were
    tracked.  The count can be smaller: of the two files of
    [Example.stuck] one cannot be removed, the call returns 1, and the
    file that is still on disk is tracked no longer. *)
Theorem cleanupAllSync_empties_registry :
  (forall (E : Type) (platform : Platform E) (w : World E),
      cleanupAllSync_within (S (List.length (tempFiles w))) w = Some (cleanupAllSync w)
      /\ getTempFiles (fst (cleanupAllSync w)) = []
      /\ (forall p, isTempFile (fst (cleanupAllSync w)) p = false)
      /\ snd (cleanupAllSync w) <= List.length (getTempFiles w))
  /\ (List.length (getTempFiles Example.stuck) = 2
      /\ snd (cleanupAllSync Example.stuck) = 1
      /\ fs_existsSync (env (fst (cleanupAllSync Example.stuck))) "/tmp/a" = true
      /\ isTempFile (fst (cleanupAllSync Example.stuck)) "/tmp/a" = false
      /\ getTempFiles (fst (cleanupAllSync Example.stuck)) = []).
Proof.
  split.
  - intros E platform w.
    pose proof (cleanupAllSync_state w) as (Hnil & Hset & _ & _ & Hle).
    split; [apply cleanupAllSync_returns; lia|].
    split; [exact Hnil|]. split; [|exact Hle].
    intros p. unfold isTempFile. rewrite Hset. apply JsSetFacts.has_clear.
  - repeat split; vm_compute; reflexivity.
Qed.

(** ** Writing *)

Section Write.

Context {E : Type} {platform : Platform E}.

Notation World := (World E).

#[local] Open Scope list_scope.

(** Splits on the scrutinee of an innermost [match] of the goal. *)
Ltac split_match :=
  match goal with
  | |- context [match ?x with _ => _ end] =>
      lazymatch x with
      | context [match _ with _ => _ end] => fail
      | _ => destruct x eqn:?
      end
  end.

Lemma registerCleanup_env (w : World) : env (registerCleanup w) = env w.
Proof. unfold registerCleanup. now destruct (cleanupRegistered w). Qed.

(** What [tempWriteSync] can throw. *)
Lemma tempWriteSync_throws (w w' : World) (content extension : Js.value)
      (options : Options) (error : Js.error) :
  tempWriteSync w content extension options = (w', Js.Throw error) ->
  error = Js.Error "Content cannot be null or undefined"
  \/ error = Js.Error "Extension must be a string"
  \/ exists cause, error = writeFailure cause.
Proof.
  unfold tempWriteSync.
  repeat split_match; intros H; inversion H; subst; eauto.
Qed.

(** However [tempWriteSync] throws, the Set, the flag, the listeners and
    the console are as before; what it throws is one of the two
    validation errors or the write failure quoting the error [mkdirSync]
    or [writeFileSync] threw; and a call that returns a path has seen the
    directory exist or be made and the file be written. *)
Lemma tempWriteSync_outcome
        (w : World) (content extension : Js.value) (options : Options) :
  match tempWriteSync w content extension options with
  | (w', Js.Throw error) =>
      sameModuleState w w'
      /\ (forall p, isTempFile w' p = isTempFile w p)
      /\ (error = Js.Error "Content cannot be null or undefined"
          \/ error = Js.Error "Extension must be a string"
          \/ exists cause, ioThrew (env w') cause /\ error = writeFailure cause)
  | (w', Js.Normal filePath) =>
      exists e2 e3 dir,
        (fs_existsSync e2 dir = true /\ e3 = e2 \/ fs_mkdirSync e2 dir = (e3, Js.Normal tt))
        /\ fs_writeFileSync e3 filePath content
             (Some (orDefault (mode options) 384%N)) = (env w', Js.Normal tt)
  end.
Proof.
  unfold tempWriteSync.
  repeat split_match; subst;
    repeat match goal with u : unit |- _ => destruct u end;
    try match goal with H : (_, _) = (_, _) |- _ => inversion H; subst; clear H end;
    try discriminate.
  all: try (split; [repeat split|split; [reflexivity|]]).
  all: try (left; reflexivity).
  all: try (right; left; reflexivity).
  all: try (right; right; eexists; split; [|reflexivity]; unfold ioThrew; simpl; eauto 7).
  all: cbn [env set_tempFiles]; rewrite ?registerCleanup_env; cbn [env set_env].
  all: try (eexists _, _, _; split; [left; split; [eassumption|reflexivity]|];
            eassumption).
  all: try (eexists _, _, _; split; [right; eassumption|]; eassumption).
Qed.

(** C3.  When making the directory or writing the file throws [cause],
    [tempWriteSync] throws the write failure that quotes [cause], and the
    module's state is what it was: the Set, the flag, the listeners and
    the console are unchanged, so the path that was to be written is no
    more tracked than before -- not tracked, if it was not. *)
Theorem tempWriteSync_failure_registers_nothing
        (w : World) (content : Js.value) (extension : string) (options : Options)
        (e2 e' : E) (dir filePath : string) (cause : Js.error) :
  content <> Js.Null -> content <> Js.Undefined ->
  writeTarget w extension options = (e2, dir, filePath) ->
  writeAttempt e2 dir filePath content (orDefault (mode options) 384%N)
  = (e', Js.Throw cause) ->
  tempWriteSync w content (Js.Str extension) options
  = (set_env w e', Js.Throw (writeFailure cause))
  /\ Js.message (writeFailure cause)
     = ("Failed to write temporary file: " ++ Js.message cause)%string
  /\ sameModuleState w (set_env w e')
  /\ (forall p, isTempFile (set_env w e') p = isTempFile w p)
  /\ (isTempFile w filePath = false -> isTempFile (set_env w e') filePath = false).
Proof.
  intros Hnull Hundef Htarget Hattempt.
  split; [|repeat split; auto].
  unfold writeTarget in Htarget. unfold writeAttempt in Hattempt.
  unfold tempWriteSync.
  destruct (crypto_randomBytes (env w) 6) as [e1 bytes].
  destruct (Date_now e1) as [e2' now].
  inversion Htarget; subst e2' dir filePath; clear Htarget.
  destruct content; try contradiction;
    (destruct (fs_existsSync e2 _);
     [|destruct (fs_mkdirSync e2 _) as [e3 [u|error]]]);
    try (inversion Hattempt; subst; reflexivity);
    now rewrite Hattempt.
Qed.

(** When the directory is there or is made and the file is written,
    [tempWriteSync] returns the path it set out to write, whose name ends
    in the normalized extension. *)
Lemma tempWriteSync_returns_target
      (w : World) (content : Js.value) (extension : string) (options : Options)
      (e2 e' : E) (dir filePath : string) (u : unit) :
  content <> Js.Null -> content <> Js.Undefined ->
  writeTarget w extension options = (e2, dir, filePath) ->
  writeAttempt e2 dir filePath content (orDefault (mode options) 384%N)
  = (e', Js.Normal u) ->
  snd (tempWriteSync w content (Js.Str extension) options) = Js.Normal filePath
  /\ exists stem,
       filePath = path_join dir (orDefault (prefix options) "temp-" ++ stem
                                 ++ normalizeExtension extension)%string.
Proof.
  intros Hnull Hundef Htarget Hattempt.
  unfold writeTarget in Htarget. unfold writeAttempt in Hattempt.
  unfold tempWriteSync.
  destruct (crypto_randomBytes (env w) 6) as [e1 bytes].
  destruct (Date_now e1) as [e2' now].
  inversion Htarget; subst e2' dir filePath; clear Htarget.
  split.
  - destruct content; try contradiction;
      (destruct (fs_existsSync e2 _);
       [|destruct (fs_mkdirSync e2 _) as [e3 [u'|error]]; [|discriminate]]);
      rewrite Hattempt; destruct (orDefault (cleanup options) true); reflexivity.
  - exists (Js.toString36 now ++ "-" ++ Js.toHex bytes)%string.
    unfold tempFileName. now rewrite !StringFacts.append_assoc.
Qed.

Lemma normalizeExtension_cases (s : string) :
  (s = EmptyString /\ normalizeExtension s = EmptyString)
  \/ (Js.startsWith s "." = true /\ normalizeExtension s = s)
  \/ (s <> EmptyString /\ Js.startsWith s "." = false /\ normalizeExtension s = "." ++ s)%string.
Proof.
  unfold normalizeExtension.
  destruct (String.eqb_spec s EmptyString) as [->|Hne]; [left; split; reflexivity|].
  destruct (Js.startsWith s ".") eqn:Hdot; simpl; auto.
Qed.

Lemma startsWith_dot (s : string) : Js.startsWith ("." ++ s) "." = true.
Proof. unfold Js.startsWith. apply StringFacts.prefix_append. Qed.

Lemma normalizeExtension_idempotent (s : string) :
  normalizeExtension (normalizeExtension s) = normalizeExtension s.
Proof.
  destruct (normalizeExtension_cases s) as [[-> ->]|[[Hdot Hs]|(Hne & Hdot & ->)]].
  - reflexivity.
  - now rewrite !Hs.
  - destruct (normalizeExtension_cases ("." ++ s)) as [[H _]|[[_ H]|(_ & H & _)]].
    + discriminate.
    + exact H.
    + now rewrite startsWith_dot in H.
Qed.

End Write.

(** The file may not be created: the write is refused, the call throws
    the write failure, and the path is not tracked. *)
Lemma tempWriteSync_failure_registers_nothing_witness :
  tempWriteSync Example.readOnly (Js.Str "hello") (Js.Str "txt") noOptions
  = (set_env Example.readOnly
             (Sim.mkEnv [("/tmp", Sim.directory)]
                        ["/tmp/temp-loyw3v28-0a1b2c3d4e5f.txt"] 1700000000001 []),
     Js.Throw (Js.Error
       "Failed to write temporary file: EACCES: permission denied, open '/tmp/temp-loyw3v28-0a1b2c3d4e5f.txt'"))
  /\ isTempFile
       (fst (tempWriteSync Example.readOnly (Js.Str "hello") (Js.Str "txt") noOptions))
       "/tmp/temp-loyw3v28-0a1b2c3d4e5f.txt" = false.
Proof.
  destruct (tempWriteSync_failure_registers_nothing
              Example.readOnly (Js.Str "hello") "txt" noOptions
              (Sim.mkEnv [("/tmp", Sim.directory)]
                         ["/tmp/temp-loyw3v28-0a1b2c3d4e5f.txt"] 1700000000001 [])
              (Sim.mkEnv [("/tmp", Sim.directory)]
                         ["/tmp/temp-loyw3v28-0a1b2c3d4e5f.txt"] 1700000000001 [])
              "/tmp" "/tmp/temp-loyw3v28-0a1b2c3d4e5f.txt"
              (Sim.EACCES "open" "/tmp/temp-loyw3v28-0a1b2c3d4e5f.txt"))
    as (Hcall & _ & _ & _ & Htracked).
  - discriminate.
  - discriminate.
  - vm_compute. reflexivity.
  - vm_compute. reflexivity.
  - split; [exact Hcall|]. rewrite Hcall. apply Htracked. vm_compute. reflexivity.
Defined.

(** C8.  A non-empty extension, once normalized, starts with a dot;
    normalizing is idempotent and leaves alone an extension that has its
    dot; hence a call with an extension and the call with the normalized
    extension are one and the same, [write(x, "txt")] and
    [write(x, ".txt")] among them, and the name either hands to
    [path.join] ends in [.txt].  The normalized extension is what the
    name of the file ends in: whenever the directory is there or is made
    and the file is written, the call returns the path joined from the
    directory and prefix, timestamp, random fragment and normalized
    extension; and so [write(x, "txt")] and [write(x, ".txt")] return the
    same path, its name ending in [.txt]. *)
Theorem normalizeExtension_dot_idempotent :
  (forall s, s <> EmptyString -> Js.startsWith (normalizeExtension s) "." = true)
  /\ (forall s, normalizeExtension (normalizeExtension s) = normalizeExtension s)
  /\ (forall s, Js.startsWith s "." = true -> normalizeExtension s = s)
  /\ normalizeExtension "txt" = ".txt"
  /\ (forall (E : Type) (platform : Platform E) (w : World E) content s options,
         tempWriteSync w content (Js.Str s) options
         = tempWriteSync w content (Js.Str (normalizeExtension s)) options)
  /\ (forall (E : Type) (platform : Platform E) (w : World E) content options,
         tempWriteSync w content (Js.Str "txt") options
         = tempWriteSync w content (Js.Str ".txt") options
         /\ match tempWriteSync w content (Js.Str "txt") options with
            | (_, Js.Normal filePath) =>
                exists stem,
                  filePath = path_join (orDefault (dir options) (os_tmpdir (env w)))
                                       (stem ++ ".txt")
            | (_, Js.Throw _) => True
            end)
  /\ (forall (E : Type) (platform : Platform E) (w : World E) content s options
             (e2 e' : E) (dir filePath : string) (u : unit),
         content <> Js.Null -> content <> Js.Undefined ->
         writeTarget w s options = (e2, dir, filePath) ->
         writeAttempt e2 dir filePath content (orDefault (mode options) 384%N)
         = (e', Js.Normal u) ->
         snd (tempWriteSync w content (Js.Str s) options) = Js.Normal filePath
         /\ exists stem,
              filePath = path_join dir (orDefault (prefix options) "temp-" ++ stem
                                        ++ normalizeExtension s))
  /\ (forall (E : Type) (platform : Platform E) (w : World E) content options
             (e2 e' : E) (dir filePath : string) (u : unit),
         content <> Js.Null -> content <> Js.Undefined ->
         writeTarget w "txt" options = (e2, dir, filePath) ->
         writeAttempt e2 dir filePath content (orDefault (mode options) 384%N)
         = (e', Js.Normal u) ->
         snd (tempWriteSync w content (Js.Str "txt") options) = Js.Normal filePath
         /\ snd (tempWriteSync w content (Js.Str ".txt") options) = Js.Normal filePath
         /\ exists stem,
              filePath = path_join dir (orDefault (prefix options) "temp-" ++ stem
                                        ++ ".txt")).
Proof.
  assert (Hsame : forall (E : Type) (platform : Platform E) (w : World E) content options,
             tempWriteSync w content (Js.Str "txt") options
             = tempWriteSync w content (Js.Str ".txt") options)
    by (intros E platform w content options; unfold tempWriteSync;
        destruct content; reflexivity).
  split; [|split; [|split; [|split; [|split; [|split; [|split]]]]]];
    [| | | | | |apply @tempWriteSync_returns_target|].
  7: { intros E platform w content options e2 e' dir filePath u Hn Hu Ht Ha.
       destruct (tempWriteSync_returns_target w content "txt" options
                   e2 e' dir filePath u Hn Hu Ht Ha) as [Hret Hstem].
       split; [exact Hret|]. split; [rewrite <- Hsame; exact Hret|exact Hstem]. }
  - intros s Hne.
    destruct (normalizeExtension_cases s) as [[H _]|[[Hdot ->]|(_ & _ & ->)]].
    + contradiction.
    + exact Hdot.
    + apply startsWith_dot.
  - apply normalizeExtension_idempotent.
  - intros s Hdot.
    destruct (normalizeExtension_cases s) as [[-> H]|[[_ H]|(_ & H & _)]];
      [exact H|exact H|congruence].
  - reflexivity.
  - intros E platform w content s options. unfold tempWriteSync.
    rewrite normalizeExtension_idempotent. reflexivity.
  - intros E platform w content options. split.
    + apply Hsame.
    + unfold tempWriteSync.
      change (normalizeExtension "txt") with ".txt".
      destruct content; try exact I;
        destruct (crypto_randomBytes (env w) 6) as [e1 bytes];
        destruct (Date_now e1) as [e2 now];
        (destruct (fs_existsSync e2 _);
         [|destruct (fs_mkdirSync e2 _) as [e3 [u|error]]; [|exact I]]);
        (match goal with
         | |- context [fs_writeFileSync ?e ?p ?c ?m] =>
             destruct (fs_writeFileSync e p c m) as [e4 [u'|error']]; [|exact I]
         end);
        destruct (orDefault (cleanup options) true);
        eexists; unfold tempFileName;
        rewrite <- !StringFacts.append_assoc; reflexivity.
Qed.

(** The file of [Example.fresh] can be written: asked for [txt] and
    asked for [.txt], [tempWriteSync] returns the same path, and its name
    ends in [.txt]. *)
Lemma normalizeExtension_dot_idempotent_witness :
  snd (tempWriteSync Example.fresh (Js.Str "hello") (Js.Str "txt") noOptions)
  = Js.Normal "/tmp/temp-loyw3v28-0a1b2c3d4e5f.txt"
  /\ snd (tempWriteSync Example.fresh (Js.Str "hello") (Js.Str ".txt") noOptions)
     = Js.Normal "/tmp/temp-loyw3v28-0a1b2c3d4e5f.txt".
Proof.
  destruct normalizeExtension_dot_idempotent as (_ & _ & _ & _ & _ & _ & _ & Htxt).
  destruct (Htxt Sim.env SimPlatform Example.fresh (Js.Str "hello") noOptions
              (Sim.mkEnv [("/tmp", Sim.directory)] [] 1700000000001 [])
              (Sim.mkEnv [("/tmp", Sim.directory);
                          ("/tmp/temp-loyw3v28-0a1b2c3d4e5f.txt",
                           Sim.file (Js.Str "hello") (Some 384%N))]
                         [] 1700000000001 [])
              "/tmp" "/tmp/temp-loyw3v28-0a1b2c3d4e5f.txt" tt)
    as (Hplain & Hdotted & _).
  - discriminate.
  - discriminate.
  - vm_compute. reflexivity.
  - vm_compute. reflexivity.
  - split; [exact Hplain|exact Hdotted].
Defined.

(** ** The hooks over a run *)

Section Hooks.

Context {E : Type} {platform : Platform E}.

Notation World := (World E).

#[local] Open Scope list_scope.

(** Calls that ask for no tracking leave the module's flag and listeners
    as they are. *)
Lemma run_without_tracking (calls : list Call) : forall w : World,
  existsb wantsCleanup calls = false ->
  cleanupRegistered (run w calls) = cleanupRegistered w
  /\ listeners (run w calls) = listeners w.
Proof.
  induction calls as [|c calls IH]; intros w H; simpl in *; [auto|].
  apply orb_false_iff in H as [Hc Hrest].
  destruct (IH (fst (step w c)) Hrest) as [-> ->].
  destruct (step_effect w c) as [(r & Hcr & ->)|(_ & Hf & Hl & _)]; [|auto].
  rewrite Hc in Hcr. apply Creates_untracked in Hcr as (_ & Hf & Hl & _).
  destruct r as [w' [p|error]]; simpl in *; auto.
Qed.

(** One call changes the listeners only by attaching all five to a
    process that had none, and then it returns a path it now tracks. *)
Lemma step_listeners (w : World) (c : Call) :
  listeners (fst (step w c)) = listeners w
  \/ (cleanupRegistered w = false
      /\ listeners (fst (step w c)) = listeners w ++ exitHandlers
      /\ wantsCleanup c = true
      /\ exists p, snd (step w c) = Js.Normal (returned_path p)
                   /\ isTempFile (fst (step w c)) p = true).
Proof.
  destruct (step_effect w c) as [([w' r] & Hcr & ->)|(_ & _ & Hl & _)]; [|now left].
  destruct (Creates_listeners _ _ _ _ Hcr) as [Hl|(Hf & Hl & Ht & p & -> & Hp)].
  - left. destruct r; exact Hl.
  - right. simpl. repeat split; try assumption. now exists p.
Qed.

Lemma swept_refl (w : World) : swept w w.
Proof. repeat split. now left. Qed.

Lemma swept_trans (w1 w2 w3 : World) : swept w1 w2 -> swept w2 w3 -> swept w1 w3.
Proof.
  intros (Hf & Hl & Hd) (Hf' & Hl' & Hd'). repeat split; try congruence.
  destruct Hd as [Hd|Hd], Hd' as [Hd'|Hd']; rewrite Hd', Hd;
    rewrite ?JsSetFacts.clear_clear; auto.
Qed.

Lemma swept_cleanupAllSync (w : World) : swept w (fst (cleanupAllSync w)).
Proof.
  pose proof (cleanupAllSync_state w) as (_ & Hd & Hf & Hl & _).
  repeat split; auto.
Qed.

Lemma swept_print (w : World) (line : ConsoleLine) : swept w (print w line).
Proof. repeat split. now left. Qed.

Lemma swept_process_exit (w : World) : swept w (process_exit w).
Proof.
  unfold process_exit. generalize (listeners w) at 1. intros attached.
  revert w. induction attached as [|l attached IH]; intros w; simpl; [apply swept_refl|].
  eapply swept_trans; [|apply IH].
  destruct l; try apply swept_refl. apply swept_cleanupAllSync.
Qed.

Lemma swept_listener (event : ProcessEvent) (what : string) (w : World) :
  swept w (fst (listener event what w)).
Proof.
  destruct event; simpl;
    eauto using swept_trans, swept_print, swept_cleanupAllSync, swept_process_exit.
Qed.

Lemma swept_emit (w : World) (event : ProcessEvent) (what : string) :
  swept w (fst (emit w event what)).
Proof.
  unfold emit. generalize (listeners w) at 1. intros attached.
  revert w. induction attached as [|l attached IH]; intros w; simpl; [apply swept_refl|].
  destruct (ProcessEvent_eqb l event); [|apply IH].
  pose proof (swept_listener l what w) as Hl.
  destruct (listener l what w) as [w' [code|]]; simpl in *; [exact Hl|].
  eapply swept_trans; [exact Hl|apply IH].
Qed.

Lemma swept_Releases (w w' : World) : swept w w' -> Releases w w'.
Proof. intros (Hf & Hl & [Hd|Hd]); repeat split; auto. Qed.

(** C5.  In every state a program reaches by calling the module, the
    listeners are none or the five of [registerCleanup], each event once,
    and are there exactly when the flag is set.  A run in which no
    creating call asks for cleanup attaches none.  And a call attaches
    them only when none were attached, in the very call that returns the
    first path to be tracked. *)
Theorem hooks_installed_once_and_lazily (e : E) (calls : list Call) :
  (listeners (run (loaded e) calls) = []
   /\ cleanupRegistered (run (loaded e) calls) = false
   \/ listeners (run (loaded e) calls) = exitHandlers
      /\ cleanupRegistered (run (loaded e) calls) = true)
  /\ NoDup (listeners (run (loaded e) calls))
  /\ (existsb wantsCleanup calls = false -> listeners (run (loaded e) calls) = [])
  /\ (forall c,
         listeners (fst (step (run (loaded e) calls) c)) = listeners (run (loaded e) calls)
         \/ (listeners (run (loaded e) calls) = []
             /\ listeners (fst (step (run (loaded e) calls) c)) = exitHandlers
             /\ wantsCleanup c = true
             /\ exists p,
                  snd (step (run (loaded e) calls) c) = Js.Normal (returned_path p)
                  /\ isTempFile (fst (step (run (loaded e) calls) c)) p = true)).
Proof.
  pose proof (run_wellKept calls _ (loaded_wellKept e)) as (Hm & _ & _).
  split; [destruct Hm as [[Hf Hl]|[Hf Hl]]; auto|].
  split.
  { destruct Hm as [[_ ->]|[_ ->]]; [constructor|].
    unfold exitHandlers. repeat constructor; simpl; intuition discriminate. }
  split.
  { intros Hnone. now destruct (run_without_tracking calls (loaded e) Hnone) as [_ ->]. }
  intros c.
  destruct (step_listeners (run (loaded e) calls) c) as [Hl|(Hf & Hl & Ht & Hp)];
    [now left|right].
  destruct Hm as [[_ Hnil]|[Hf' _]]; [|congruence].
  rewrite Hnil in Hl. repeat split; auto.
Qed.

(** C9.  In every state a program reaches by calling the module, either
    no path is tracked or the flag is set and the five listeners are
    attached.  A call after which a path is tracked that was not tracked
    before leaves the hooks installed, [registerCleanup] coming just
    before [tempFiles.add] wherever the latter occurs.  The listeners
    themselves, when an event arrives, keep the invariant. *)
Theorem tracked_paths_have_hooks (e : E) (calls : list Call) :
  trackedImpliesHooks (run (loaded e) calls)
  /\ (forall c p,
         isTempFile (fst (step (run (loaded e) calls) c)) p = true ->
         isTempFile (run (loaded e) calls) p = true
         \/ (cleanupRegistered (fst (step (run (loaded e) calls) c)) = true
             /\ listeners (fst (step (run (loaded e) calls) c)) = exitHandlers))
  /\ (forall event what,
         trackedImpliesHooks (fst (emit (run (loaded e) calls) event what))).
Proof.
  pose proof (run_wellKept calls _ (loaded_wellKept e)) as Hkept.
  destruct Hkept as (Hm & Ht & Hn).
  split; [exact Ht|]. split.
  - intros c p Hp.
    destruct (step_effect (run (loaded e) calls) c) as [(r & Hcr & Heq)|(_ & HR)].
    + assert (Hfst : fst (returnPath r) = fst r) by (destruct r as [? []]; reflexivity).
      rewrite Heq, Hfst in *.
      inversion Hcr as [w' error Hs Hr|w' q Hwant Hs Hr|e' q Hwant Hr]; subst r.
      * left. destruct Hs as (Hd & _). unfold isTempFile in *. simpl in Hp.
        now rewrite <- Hd.
      * left. destruct Hs as (Hd & _). unfold isTempFile in *. simpl in Hp.
        now rewrite <- Hd.
      * right. simpl.
        apply (registerCleanup_hooks (set_env (run (loaded e) calls) e')). exact Hm.
    + left. eapply Releases_tracked; eassumption.
  - intros event what.
    eapply Releases_trackedImpliesHooks; [|exact Ht].
    apply swept_Releases, swept_emit.
Qed.

End Hooks.

(** ** File names from a pattern *)

Section Pattern.

Context {E : Type} {platform : Platform E}.

Notation World := (World E).

(** C6, as the code has it.  The file name is the pattern in which the
    first [{random}] is replaced by the random fragment, then the first
    [{timestamp}] and then the first [{time}] by the timestamp fragment;
    everything else of the pattern stays as written, so a pattern in which
    none of the three occurs is the file name itself.  The name is made
    without any check that could fail: the call returns the path joined
    from the directory and that name, or throws the write failure of the
    file system. *)
Theorem tempWritePatternSync_replaces_first_occurrences
        (w : World) (content : Js.value) (pattern : string) (options : Options) :
  let randomId := Js.toHex (snd (crypto_randomBytes (env w) 6)) in
  let timestamp := Js.toString36 (snd (Date_now (fst (crypto_randomBytes (env w) 6)))) in
  (exists s1 s2,
      FirstReplaced "{random}" randomId pattern s1
      /\ FirstReplaced "{timestamp}" timestamp s1 s2
      /\ FirstReplaced "{time}" timestamp s2 (patternFileName pattern randomId timestamp))
  /\ ((forall a b, pattern <> a ++ "{random}" ++ b) ->
      (forall a b, pattern <> a ++ "{timestamp}" ++ b) ->
      (forall a b, pattern <> a ++ "{time}" ++ b) ->
      patternFileName pattern randomId timestamp = pattern)
  /\ match tempWritePatternSync w content pattern options with
     | (_, Js.Normal filePath) =>
         filePath = path_join (orDefault (dir options) (os_tmpdir (env w)))
                              (patternFileName pattern randomId timestamp)
     | (w', Js.Throw error) =>
         exists cause, ioThrew (env w') cause /\ error = writeFailure cause
     end.
Proof.
  cbv zeta. split; [|split].
  - eexists _, _. unfold patternFileName.
    repeat split; apply StringFacts.replace_FirstReplaced;
      auto using StringFacts.toHex_dollarFree, StringFacts.toString36_dollarFree.
  - intros Hrandom Htimestamp Htime. unfold patternFileName.
    rewrite (StringFacts.replace_absent pattern "{random}") by assumption.
    rewrite (StringFacts.replace_absent pattern "{timestamp}") by assumption.
    now apply StringFacts.replace_absent.
  - unfold tempWritePatternSync.
    destruct (crypto_randomBytes (env w) 6) as [e1 bytes]; simpl.
    destruct (Date_now e1) as [e2 now]; simpl.
    destruct (fs_existsSync e2 _) eqn:Hex.
    + destruct (fs_writeFileSync e2 _ content None) as [e4 [u|error]] eqn:Hwrite.
      * destruct (orDefault (cleanup options) true); reflexivity.
      * exists error. split; [|reflexivity]. right. simpl. eauto.
    + destruct (fs_mkdirSync e2 _) as [e3 [u|error]] eqn:Hmk.
      * destruct (fs_writeFileSync e3 _ content None) as [e4 [u'|error]] eqn:Hwrite.
        -- destruct (orDefault (cleanup options) true); reflexivity.
        -- exists error. split; [|reflexivity]. right. simpl. eauto.
      * exists error. split; [|reflexivity]. left. simpl. eauto.
Qed.

End Pattern.

(** C6, as stated, fails: of two [{random}] in a pattern only the first
    is substituted, the second is in the name of the file as written. *)
Lemma tempWritePatternSync_second_occurrence_stays :
  snd (tempWritePatternSync Example.fresh (Js.Str "hello") "{random}-{random}.txt" noOptions)
  = Js.Normal "/tmp/0a1b2c3d4e5f-{random}.txt".
Proof. vm_compute. reflexivity. Qed.

(** ** CSV input *)

Section Csv.

Context {E : Type} {platform : Platform E}.

Notation World := (World E).

Lemma writeFailure_not_format (cause : Js.error) :
  writeFailure cause <> Js.Error "Invalid CSV data format".
Proof. unfold writeFailure, failed, Js.Error. simpl. discriminate. Qed.

(** C7, as the code has it.  Input that is not an array is refused with
    [CSV data must be an array], before anything is written.  An array
    whose first row is a number, a string, a boolean or [undefined] (a
    row whose [typeof] is not [object]) is refused with
    [Invalid CSV data format], likewise before anything is written,
    whatever the rows after it.  And that error is thrown in no other
    way: the rows after the first are not examined for their shape, so
    an array whose first row is an array or a record is never refused
    with it. *)
Theorem tempWriteCsvSync_rejects_by_first_row
        (w : World) (data : Js.value) (options : Options) :
  (Js.isArray data = false ->
   tempWriteCsvSync w data options = (w, Js.Throw (Js.Error "CSV data must be an array")))
  /\ (forall first rest,
         data = Js.Array (first :: rest) -> Js.typeof first <> "object" ->
         tempWriteCsvSync w data options
         = (w, Js.Throw (Js.Error "Invalid CSV data format")))
  /\ (forall w',
         tempWriteCsvSync w data options
         = (w', Js.Throw (Js.Error "Invalid CSV data format")) ->
         w' = w
         /\ exists first rest,
              data = Js.Array (first :: rest) /\ Js.typeof first <> "object")
  /\ (forall first rest w' error,
         data = Js.Array (first :: rest) ->
         (Js.isArray first = true \/ exists props, first = Js.Object props) ->
         tempWriteCsvSync w data options = (w', Js.Throw error) ->
         error <> Js.Error "Invalid CSV data format").
Proof.
  assert (Honly : forall w',
             tempWriteCsvSync w data options
             = (w', Js.Throw (Js.Error "Invalid CSV data format")) ->
             w' = w
             /\ exists first rest,
                  data = Js.Array (first :: rest) /\ Js.typeof first <> "object");
    [|split; [|split; [|split; [exact Honly|]]]].
  - intros w' H. unfold tempWriteCsvSync in H.
    destruct data as [| | | | |rows|]; try discriminate.
    destruct (csvContent _ rows) as [text|error] eqn:Hcsv.
    + destruct (tempWriteSync_throws _ _ _ _ _ _ H) as [Hbad|[Hbad|[cause Hbad]]];
        [discriminate|discriminate|].
      now elim (writeFailure_not_format cause).
    + inversion H; subst.
      destruct (CsvFacts.csvContent_throws _ _ _ Hcsv) as [Hname|[_ (first & rest & -> & Hs)]];
        [discriminate|].
      split; [reflexivity|eauto].
  - intros Harr. destruct data; try reflexivity. discriminate.
  - intros first rest -> Hscalar. unfold tempWriteCsvSync.
    now rewrite CsvFacts.csvContent_scalar_first.
  - intros first rest w' error -> Hshape Hthrow ->.
    destruct (Honly _ Hthrow) as (_ & first' & rest' & Heq & Htype).
    inversion Heq; subst first' rest'. apply Htype.
    destruct Hshape as [Harr|[props ->]]; [|reflexivity].
    destruct first; try discriminate. reflexivity.
Qed.

End Csv.

(** C7, as stated, fails.  A record followed by the number 42 is written
    out as a file of three lines, and an array followed by 42 ends in a
    [TypeError] of the runtime, not in the format error. *)
Lemma tempWriteCsvSync_mixed_rows_pass :
  snd (tempWriteCsvSync Example.fresh Example.recordThenNumber noOptions)
  = Js.Normal "/tmp/temp-loyw3v28-0a1b2c3d4e5f.csv"
  /\ fs_readFileSync
       (env (fst (tempWriteCsvSync Example.fresh Example.recordThenNumber noOptions)))
       "/tmp/temp-loyw3v28-0a1b2c3d4e5f.csv"
     = Js.Normal (Js.Str (Js.quote ++ "a" ++ Js.quote ++ Js.newline
                          ++ Js.quote ++ "1" ++ Js.quote ++ Js.newline
                          ++ Js.quote ++ Js.quote))
  /\ snd (tempWriteCsvSync Example.fresh Example.arrayThenNumber noOptions)
     = Js.Throw (Js.TypeError "row.map is not a function").
Proof. repeat split; vm_compute; reflexivity. Qed.

(** ** The module's test suite, replayed on the simulated platform *)

Module Tests.
Import Example.

(** should auto-add dot to extension; should register file for cleanup
    by default *)
Lemma test_write_and_register :
  snd (tempWriteSync suite (Js.Str "content") (Js.Str "txt") noOptions)
  = Js.Normal (first ++ ".txt")
  /\ written (tempWriteSync suite (Js.Str "content") (Js.Str "txt") noOptions)
     = Js.Normal (Js.Str "content")
  /\ isTempFile (fst (tempWriteSync suite (Js.Str "content") (Js.Str "txt") noOptions))
                (first ++ ".txt") = true
  /\ getTempFiles (fst (tempWriteSync suite (Js.Str "content") (Js.Str "txt") noOptions))
     = [first ++ ".txt"].
Proof. repeat split; vm_compute; reflexivity. Qed.

(** should skip cleanup when disabled *)
Lemma test_cleanup_disabled :
  snd (tempWriteSync suite (Js.Str "content") (Js.Str ".txt") (only false))
  = Js.Normal (first ++ ".txt")
  /\ isTempFile (fst (tempWriteSync suite (Js.Str "content") (Js.Str ".txt") (only false)))
                (first ++ ".txt") = false
  /\ listeners (fst (tempWriteSync suite (Js.Str "content") (Js.Str ".txt") (only false)))
     = [].
Proof. repeat split; vm_compute; reflexivity. Qed.

(** should throw error for null content, for undefined content, for
    non-string extension; should handle write errors gracefully *)
Lemma test_write_errors :
  snd (tempWriteSync suite Js.Null (Js.Str ".txt") noOptions)
  = Js.Throw (Js.Error "Content cannot be null or undefined")
  /\ snd (tempWriteSync suite Js.Undefined (Js.Str ".txt") noOptions)
     = Js.Throw (Js.Error "Content cannot be null or undefined")
  /\ snd (tempWriteSync suite (Js.Str "content") (Js.Number 123) noOptions)
     = Js.Throw (Js.Error "Extension must be a string")
  /\ snd (tempWriteSync suite (Js.Str "content") (Js.Str ".txt")
            (within "/invalid/path/that/does/not/exist"))
     = Js.Throw (Js.Error
         "Failed to write temporary file: EACCES: permission denied, mkdir '/invalid/path/that/does/not/exist'").
Proof. repeat split; vm_compute; reflexivity. Qed.

(** should create JSON file from object; should throw error for invalid
    input *)
Lemma test_json :
  written (tempWriteJsonSync suite
             (Js.Object [("name", Js.Str "John"); ("age", Js.Number 30);
                         ("active", Js.Boolean true)]) noOptions)
  = Js.Normal (Js.Str ("{" ++ Js.newline
                 ++ "  " ++ quoted "name" ++ ": " ++ quoted "John" ++ "," ++ Js.newline
                 ++ "  " ++ quoted "age" ++ ": 30," ++ Js.newline
                 ++ "  " ++ quoted "active" ++ ": true" ++ Js.newline
                 ++ "}"))
  /\ snd (tempWriteJsonSync suite Js.Null noOptions)
     = Js.Throw (Js.Error "Input must be a valid object")
  /\ snd (tempWriteJsonSync suite (Js.Str "string") noOptions)
     = Js.Throw (Js.Error "Input must be a valid object").
Proof. repeat split; vm_compute; reflexivity. Qed.

(** should create CSV from array of arrays; from array of objects;
    should use custom delimiter; should handle empty array; should
    escape quotes in CSV data; should throw error for invalid input *)
Lemma test_csv :
  written (tempWriteCsvSync suite
             (Js.Array [Js.Array [Js.Str "Name"; Js.Str "Age"];
                        Js.Array [Js.Str "John"; Js.Number 30];
                        Js.Array [Js.Str "Jane"; Js.Number 25]]) noOptions)
  = Js.Normal (Js.Str (quoted "Name" ++ "," ++ quoted "Age" ++ Js.newline
                 ++ quoted "John" ++ "," ++ quoted "30" ++ Js.newline
                 ++ quoted "Jane" ++ "," ++ quoted "25"))
  /\ written (tempWriteCsvSync suite
                (Js.Array [Js.Object [("name", Js.Str "John"); ("age", Js.Number 30)];
                           Js.Object [("name", Js.Str "Jane"); ("age", Js.Number 25)]])
                noOptions)
     = Js.Normal (Js.Str (quoted "name" ++ "," ++ quoted "age" ++ Js.newline
                    ++ quoted "John" ++ "," ++ quoted "30" ++ Js.newline
                    ++ quoted "Jane" ++ "," ++ quoted "25"))
  /\ written (tempWriteCsvSync suite
                (Js.Array [Js.Array [Js.Str "A"; Js.Str "B"];
                           Js.Array [Js.Str "1"; Js.Str "2"]]) (separatedBy ";"))
     = Js.Normal (Js.Str (quoted "A" ++ ";" ++ quoted "B" ++ Js.newline
                    ++ quoted "1" ++ ";" ++ quoted "2"))
  /\ written (tempWriteCsvSync suite (Js.Array []) noOptions)
     = Js.Normal (Js.Str EmptyString)
  /\ written (tempWriteCsvSync suite
                (Js.Array [Js.Array [Js.Str ("Quote: " ++ quoted "Hello"); Js.Str "Normal"]])
                noOptions)
     = Js.Normal (Js.Str (quoted ("Quote: " ++ quoted (quoted "Hello"))
                    ++ "," ++ quoted "Normal"))
  /\ snd (tempWriteCsvSync suite (Js.Str "not an array") noOptions)
     = Js.Throw (Js.Error "CSV data must be an array")
  /\ snd (tempWriteCsvSync suite (Js.Array [Js.Str "invalid item"]) noOptions)
     = Js.Throw (Js.Error "Invalid CSV data format").
Proof. repeat split; vm_compute; reflexivity. Qed.

(** should create temporary directory *)
Lemma test_dir :
  snd (tempDirSync suite noOptions) = Js.Normal "/tmp/temp-dir-loyw3v28-0a1b2c3d4e5f"
  /\ fs_statSync_isDirectory (env (fst (tempDirSync suite noOptions)))
       "/tmp/temp-dir-loyw3v28-0a1b2c3d4e5f" = Js.Normal true.
Proof. repeat split; vm_compute; reflexivity. Qed.

(** should use original extension when none provided; should throw
    error for non-existent source *)
Lemma test_copy :
  snd (tempCopySync suite "/tmp/source-test.md" Js.Undefined noOptions)
  = Js.Normal (first ++ ".md")
  /\ written (tempCopySync suite "/tmp/source-test.md" Js.Undefined noOptions)
     = Js.Normal (Js.Str "content")
  /\ snd (tempCopySync suite "/non/existent/file.txt" Js.Undefined noOptions)
     = Js.Throw (Js.Error "Source file does not exist: /non/existent/file.txt").
Proof. repeat split; vm_compute; reflexivity. Qed.

(** should create file with custom pattern; should replace multiple
    placeholders *)
Lemma test_pattern :
  snd (tempWritePatternSync suite (Js.Str "content") "data-{random}.txt" noOptions)
  = Js.Normal "/tmp/data-0a1b2c3d4e5f.txt"
  /\ snd (tempWritePatternSync suite (Js.Str "content") "{timestamp}-{random}-file.txt"
            noOptions)
     = Js.Normal "/tmp/loyw3v28-0a1b2c3d4e5f-file.txt".
Proof. repeat split; vm_compute; reflexivity. Qed.

(** cleanupSync should remove specific file; should handle multiple
    cleanup calls safely; cleanupSync should handle non-existent files
    gracefully *)
Lemma test_cleanupSync :
  let w1 := fst (tempWriteSync suite (Js.Str "content") (Js.Str ".txt") noOptions) in
  let w2 := fst (cleanupSync w1 (first ++ ".txt")) in
  snd (cleanupSync w1 (first ++ ".txt")) = true
  /\ fs_existsSync (env w2) (first ++ ".txt") = false
  /\ isTempFile w2 (first ++ ".txt") = false
  /\ cleanupSync w2 (first ++ ".txt") = (w2, true)
  /\ snd (cleanupSync suite "/non/existent/file.txt") = true.
Proof. repeat split; vm_compute; reflexivity. Qed.

(** cleanupAllSync should remove all tracked files *)
Lemma test_cleanupAllSync :
  let w1 := fst (tempWriteSync suite (Js.Str "content1") (Js.Str ".txt") noOptions) in
  let w2 := fst (tempWriteSync w1 (Js.Str "content2") (Js.Str ".txt") noOptions) in
  getTempFiles w2 = [first ++ ".txt"; second ++ ".txt"]
  /\ snd (cleanupAllSync w2) = 2
  /\ fs_existsSync (env (fst (cleanupAllSync w2))) (first ++ ".txt") = false
  /\ fs_existsSync (env (fst (cleanupAllSync w2))) (second ++ ".txt") = false
  /\ getTempFiles (fst (cleanupAllSync w2)) = [].
Proof. repeat split; vm_compute; reflexivity. Qed.

(** excludeFromCleanup should remove file from tracking *)
Lemma test_excludeFromCleanup :
  let w1 := fst (tempWriteSync suite (Js.Str "content") (Js.Str ".txt") noOptions) in
  isTempFile w1 (first ++ ".txt") = true
  /\ isTempFile (excludeFromCleanup w1 (first ++ ".txt")) (first ++ ".txt") = false
  /\ getTempFiles (excludeFromCleanup w1 (first ++ ".txt")) = []
  /\ fs_existsSync (env (excludeFromCleanup w1 (first ++ ".txt"))) (first ++ ".txt") = true.
Proof. repeat split; vm_compute; reflexivity. Qed.

(** The five listeners at work: an interrupt with two files tracked
    removes both and ends the process with status 0; an uncaught
    exception prints, removes them and ends it with status 1. *)
Lemma test_listeners :
  let w1 := fst (tempWriteSync suite (Js.Str "content1") (Js.Str ".txt") noOptions) in
  let w2 := fst (tempWriteSync w1 (Js.Str "content2") (Js.Str ".txt") noOptions) in
  snd (emit w2 SIGINT EmptyString) = Some 0%Z
  /\ fs_existsSync (env (fst (emit w2 SIGINT EmptyString))) (first ++ ".txt") = false
  /\ fs_existsSync (env (fst (emit w2 SIGINT EmptyString))) (second ++ ".txt") = false
  /\ snd (emit w2 uncaughtException "Error: boom") = Some 1%Z
  /\ console (fst (emit w2 uncaughtException "Error: boom"))
     = [console_error "Uncaught Exception:" "Error: boom"]
  /\ getTempFiles (fst (emit w2 exit EmptyString)) = []
  /\ snd (emit suite SIGINT EmptyString) = None.
Proof. repeat split; vm_compute; reflexivity. Qed.

(** A row that lacks a header as its own key is read through its
    prototype: under [toString] a bare record gives the text of
    [Object.prototype.toString], under [name] it gives the empty cell;
    and a first row that is [null] is no refusal of the format but the
    TypeError of [Object.keys]. *)
Lemma test_inherited_members :
  csvContent "," [Js.Object [("toString", Js.Str "x"); ("name", Js.Str "a")];
                  Js.Object []]
  = Js.Normal (Js.quote ++ "toString" ++ Js.quote ++ "," ++ Js.quote ++ "name" ++ Js.quote
               ++ Js.newline
               ++ Js.quote ++ "x" ++ Js.quote ++ "," ++ Js.quote ++ "a" ++ Js.quote
               ++ Js.newline
               ++ Js.quote ++ "function toString() { [native code] }" ++ Js.quote
               ++ "," ++ Js.quote ++ Js.quote)
  /\ (exists message,
        snd (tempWriteCsvSync suite (Js.Array [Js.Null]) noOptions)
        = Js.Throw (Js.TypeError message)).
Proof. split; [vm_compute; reflexivity|]. eexists. vm_compute. reflexivity. Qed.

End Tests.

(** * More of the module

    The parts of [index.js] the properties above do not reach: what a
    creating call that succeeds does to the registry, the names it makes,
    [excludeFromCleanup], [tempDirSync], [tempWriteJsonSync],
    [tempCopySync], the text of a CSV file, and the listeners at work. *)

(** ** Notions *)

(** Text in which the character [c] does not occur. *)
Fixpoint lacks (c : ascii) (s : string) : bool :=
  match s with
  | EmptyString => true
  | String x rest => negb (Ascii.eqb x c) && lacks c rest
  end.

(** A row that is [null] or [undefined]. *)
Definition nullish (v : Js.value) : bool :=
  match v with
  | Js.Null | Js.Undefined => true
  | _ => false
  end.




(** What the listener of [event] leaves behind and the status it ends
    the process with, when the five listeners are attached. *)
Definition afterEvent {E : Type} {platform : Platform E}
           (event : ProcessEvent) (what : string) (w : World E) : World E * option Z :=
  match event with
  | exit => (fst (cleanupAllSync w), None)
  | SIGINT | SIGTERM => (fst (cleanupAllSync w), Some 0%Z)
  | uncaughtException =>
      (fst (cleanupAllSync (print w (console_error "Uncaught Exception:" what))), Some 1%Z)
  | unhandledRejection =>
      (fst (cleanupAllSync (print w (console_error "Unhandled Rejection:" what))), Some 1%Z)
  end.

(** ** The registry under the creating calls and [excludeFromCleanup] *)

Module MoreSetFacts.
Import JsSet.
#[local] Open Scope list_scope.

Lemma elements_delete (d : t) (v : string) :
  elements (delete d v) = filter (fun q => negb (String.eqb q v)) (elements d).
Proof.
  unfold delete. induction d as [|[x|] d IH]; simpl; [reflexivity| |exact IH].
  destruct (String.eqb x v); simpl; [exact IH|now rewrite IH].
Qed.

End MoreSetFacts.

Section Registry.

Context {E : Type} {platform : Platform E}.

Notation World := (World E).

#[local] Open Scope list_scope.

(** What a creating call that returns a path has done to the registry. *)
Lemma Creates_registry (tracking : bool) (w w' : World) (p : string) :
  Creates tracking w (w', Js.Normal p) ->
  isTempFile w' p = tracking || isTempFile w p
  /\ (forall q, q <> p -> isTempFile w' q = isTempFile w q)
  /\ getTempFiles w'
     = (if tracking && negb (isTempFile w p) then getTempFiles w ++ [p] else getTempFiles w)
  /\ (tracking = true -> cleanupRegistered w' = true)
  /\ (tracking = false -> sameModuleState w w').
Proof.
  intros H. inversion H as [|? ? Ht Hs|e q Ht]; subst.
  - pose proof Hs as (Hd & _). unfold isTempFile, getTempFiles. rewrite Hd.
    repeat split; auto; try discriminate; apply Hs.
  - pose proof (registerCleanup_state (set_env w e)) as (Hd & Hf & _).
    unfold isTempFile, getTempFiles. cbn [tempFiles set_tempFiles]. rewrite Hd.
    cbn [tempFiles set_env]. split; [|split; [|split; [|split]]].
    + rewrite JsSetFacts.has_add, String.eqb_refl. reflexivity.
    + intros q Hq. rewrite JsSetFacts.has_add.
      destruct (String.eqb_spec p q); [congruence|reflexivity].
    + rewrite JsSetFacts.elements_add. simpl. now destruct (JsSet.has (tempFiles w) p).
    + intros _. exact Hf.
    + discriminate.
Qed.

Lemma returnPath_cases (r : World * Js.completion string) :
  returnPath r = (fst r, match snd r with
                         | Js.Normal p => Js.Normal (returned_path p)
                         | Js.Throw error => Js.Throw error
                         end).
Proof. destruct r as [w [p|error]]; reflexivity. Qed.

(** Every call that returns a path or throws is a creating call. *)
Lemma step_creating (w : World) (c : Call) :
  (exists r, Creates (wantsCleanup c) w r /\ step w c = returnPath r)
  \/ (wantsCleanup c = false
      /\ exists x, snd (step w c) = Js.Normal x /\ forall p, x <> returned_path p).
Proof.
  destruct c; simpl.
  - left. eexists. split; [apply tempWriteSync_creates|reflexivity].
  - left. eexists. split; [apply tempWriteJsonSync_creates|reflexivity].
  - left. eexists. split; [apply tempWriteCsvSync_creates|reflexivity].
  - left. eexists. split; [apply tempDirSync_creates|reflexivity].
  - left. eexists. split; [apply tempCopySync_creates|reflexivity].
  - left. eexists. split; [apply tempWritePatternSync_creates|reflexivity].
  - right. split; [reflexivity|]. destruct (cleanupSync w filePath).
    eexists. split; [reflexivity|discriminate].
  - right. split; [reflexivity|]. destruct (cleanupAllSync w).
    eexists. split; [reflexivity|discriminate].
  - right. split; [reflexivity|]. eexists. split; [reflexivity|discriminate].
  - right. split; [reflexivity|]. eexists. split; [reflexivity|discriminate].
  - right. split; [reflexivity|]. eexists. split; [reflexivity|discriminate].
Qed.

(** X1.  Of whichever of the six creating functions: a call that returns
    a path leaves that path tracked exactly when cleanup was asked for
    (or the path was tracked already), leaves the tracking of every other
    path alone, has set the flag when cleanup was asked for, and has not
    touched the module's state when it was not.  A call that throws has
    not touched the module's state.  No other call returns a path. *)
Theorem creating_call_tracks_iff_cleanup (w : World) (c : Call) :
  match step w c with
  | (w', Js.Normal (returned_path p)) =>
      isTempFile w' p = wantsCleanup c || isTempFile w p
      /\ (forall q, q <> p -> isTempFile w' q = isTempFile w q)
      /\ (wantsCleanup c = true -> cleanupRegistered w' = true)
      /\ (wantsCleanup c = false -> sameModuleState w w')
  | (w', Js.Throw _) => sameModuleState w w'
  | (_, Js.Normal _) => wantsCleanup c = false
  end.
Proof.
  destruct (step_creating w c) as [([w' r] & Hcr & ->)|(Hno & x & Hx & Hnot)].
  - destruct r as [p|error]; simpl.
    + destruct (Creates_registry _ _ _ _ Hcr) as (H1 & H2 & _ & H4 & H5). auto.
    + inversion Hcr; assumption.
  - destruct (step w c) as [w' r]. simpl in Hx. subst r.
    destruct x; try exact Hno. now elim (Hnot filePath).
Qed.

Lemma run_snoc (w : World) (calls : list Call) (c : Call) :
  run w (calls ++ [c]) = fst (step (run w calls) c).
Proof. unfold run. now rewrite fold_left_app. Qed.

(** X2.  The registry holds only paths the module has made: a path that
    is tracked after a run of calls was returned, earlier in the run, by a
    creating call that asked for cleanup. *)
Theorem tracked_paths_were_created (e : E) (calls : list Call) (p : string) :
  isTempFile (run (loaded e) calls) p = true ->
  exists before c after,
    calls = before ++ c :: after
    /\ wantsCleanup c = true
    /\ snd (step (run (loaded e) before) c) = Js.Normal (returned_path p).
Proof.
  induction calls as [|c calls IH] using rev_ind; intros Hp; [discriminate|].
  rewrite run_snoc in Hp.
  assert (Hearlier : isTempFile (run (loaded e) calls) p = true ->
                     exists before c0 after,
                       calls ++ [c] = before ++ c0 :: after
                       /\ wantsCleanup c0 = true
                       /\ snd (step (run (loaded e) before) c0)
                          = Js.Normal (returned_path p)).
  { intros H. destruct (IH H) as (before & c0 & after & -> & Hc0 & Hret).
    exists before, c0, (after ++ [c]). rewrite <- app_assoc. auto. }
  destruct (step_effect (run (loaded e) calls) c) as [([w' r] & Hcr & Heq)|(_ & HR)].
  - rewrite Heq, returnPath_cases in Hp. simpl in Hp.
    destruct r as [q|error].
    + destruct (Creates_registry _ _ _ _ Hcr) as (Hq & Hother & _).
      destruct (String.eqb_spec q p) as [->|Hne].
      * destruct (wantsCleanup c) eqn:Hc.
        -- exists calls, c, []. repeat split; [exact Hc|].
           rewrite Heq. reflexivity.
        -- apply Hearlier. rewrite <- Hp, Hq. reflexivity.
      * apply Hearlier. rewrite <- Hp. symmetry. apply Hother. congruence.
    + apply Hearlier. inversion Hcr as [? ? Hs| |]; subst.
      destruct Hs as (Hd & _). unfold isTempFile in *. now rewrite <- Hd.
  - apply Hearlier. eapply Releases_tracked; eassumption.
Qed.

(** X3.  [getTempFiles] and [isTempFile] agree, whatever the state.  In
    every state a program reaches, [getTempFiles] lists no path twice.
    And the list is in the order of registration: a creating call puts
    the path it returns at the end when it asks for cleanup and the path
    is not tracked yet, and otherwise leaves the list as it is. *)
Theorem getTempFiles_lists_tracked_paths_once :
  (forall (w : World) (p : string), isTempFile w p = true <-> In p (getTempFiles w))
  /\ (forall (e : E) (calls : list Call), NoDup (getTempFiles (run (loaded e) calls)))
  /\ (forall (w : World) (c : Call),
         match step w c with
         | (w', Js.Normal (returned_path p)) =>
             getTempFiles w'
             = if wantsCleanup c && negb (isTempFile w p)
               then getTempFiles w ++ [p] else getTempFiles w
         | _ => True
         end).
Proof.
  split; [|split].
  - intros w p. apply JsSetFacts.has_elements.
  - intros e calls. apply (run_wellKept calls _ (loaded_wellKept e)).
  - intros w c.
    destruct (step_creating w c) as [([w' r] & Hcr & ->)|(Hno & x & Hx & Hnot)].
    + destruct r as [p|error]; simpl; [|exact I].
      now destruct (Creates_registry _ _ _ _ Hcr) as (_ & _ & H & _).
    + destruct (step w c) as [w' r]. simpl in Hx. subst r.
      destruct x; try exact I. now elim (Hnot filePath).
Qed.

(** X4.  [excludeFromCleanup] untracks the path and nothing else: the
    other paths keep their tracking and their order, the outside world,
    the flag, the listeners and the console are untouched; excluding
    twice is excluding once, and excluding a path that is not tracked
    changes nothing at all. *)
Theorem excludeFromCleanup_untracks_only (w : World) (p : string) :
  (forall q, isTempFile (excludeFromCleanup w p) q
             = negb (String.eqb p q) && isTempFile w q)
  /\ getTempFiles (excludeFromCleanup w p)
     = filter (fun q => negb (String.eqb q p)) (getTempFiles w)
  /\ env (excludeFromCleanup w p) = env w
  /\ cleanupRegistered (excludeFromCleanup w p) = cleanupRegistered w
  /\ listeners (excludeFromCleanup w p) = listeners w
  /\ console (excludeFromCleanup w p) = console w
  /\ excludeFromCleanup (excludeFromCleanup w p) p = excludeFromCleanup w p
  /\ (isTempFile w p = false -> excludeFromCleanup w p = w).
Proof.
  unfold excludeFromCleanup, isTempFile, getTempFiles. cbn [tempFiles set_tempFiles].
  split; [intros q; apply JsSetFacts.has_delete|].
  split; [apply MoreSetFacts.elements_delete|].
  repeat split.
  - unfold set_tempFiles. simpl. now rewrite JsSetFacts.delete_delete.
  - intros H. rewrite JsSetFacts.delete_absent by exact H. apply set_tempFiles_same.
Qed.

(** The attempts of a bulk cleanup do not depend on what the Set holds. *)
Lemma cleanupEach_whatever_tracked (snapshot : list string) : forall (w : World) (d : JsSet.t),
  snd (cleanupEach (set_tempFiles w d) snapshot) = snd (cleanupEach w snapshot)
  /\ env (fst (cleanupEach (set_tempFiles w d) snapshot)) = env (fst (cleanupEach w snapshot))
  /\ console (fst (cleanupEach (set_tempFiles w d) snapshot))
     = console (fst (cleanupEach w snapshot)).
Proof.
  induction snapshot as [|p rest IH]; intros w d; simpl; [auto|].
  rewrite cleanupSync_set_tempFiles.
  destruct (cleanupSync w p) as [w1 cleaned]. cbn [fst snd].
  specialize (IH w1 (if cleaned then JsSet.delete d p else d)).
  destruct (cleanupEach (set_tempFiles w1 _) rest) as [w2 outcomes].
  destruct (cleanupEach w1 rest) as [w2' outcomes']. simpl in *.
  destruct IH as (-> & -> & ->). auto.
Qed.

(** X5.  After [excludeFromCleanup(p)] the bulk cleanup attempts the
    other tracked paths, in their order, and never [p]: its count, the
    outside world and the console it leaves are those of cleaning up each
    tracked path other than [p]. *)
Theorem cleanupAllSync_skips_excluded (w : World) (p : string) :
  NoDup (getTempFiles w) ->
  snd (cleanupAllSync (excludeFromCleanup w p))
  = succeeded (snd (cleanupEach w (filter (fun q => negb (String.eqb q p)) (getTempFiles w))))
  /\ env (fst (cleanupAllSync (excludeFromCleanup w p)))
     = env (fst (cleanupEach w (filter (fun q => negb (String.eqb q p)) (getTempFiles w))))
  /\ console (fst (cleanupAllSync (excludeFromCleanup w p)))
     = console (fst (cleanupEach w (filter (fun q => negb (String.eqb q p)) (getTempFiles w))))
  /\ ~ In p (filter (fun q => negb (String.eqb q p)) (getTempFiles w)).
Proof.
  intros Hnodup.
  assert (Hrun : cleanupAllSync (excludeFromCleanup w p)
                 = (set_tempFiles
                      (fst (cleanupEach (excludeFromCleanup w p)
                              (getTempFiles (excludeFromCleanup w p))))
                      (JsSet.clear
                         (tempFiles (fst (cleanupEach (excludeFromCleanup w p)
                                            (getTempFiles (excludeFromCleanup w p)))))),
                    succeeded (snd (cleanupEach (excludeFromCleanup w p)
                                      (getTempFiles (excludeFromCleanup w p)))))).
  { unfold cleanupAllSync, cleanupAllSync_within.
    rewrite forOfTempFiles_snapshot; [reflexivity|lia|].
    change (skipn 0 (tempFiles (excludeFromCleanup w p)))
      with (tempFiles (excludeFromCleanup w p)).
    apply (JsSetFacts.NoDup_delete (tempFiles w) p Hnodup). }
  rewrite Hrun. cbn [fst snd env console set_tempFiles].
  assert (Hlist : getTempFiles (excludeFromCleanup w p)
                  = filter (fun q => negb (String.eqb q p)) (getTempFiles w))
    by apply MoreSetFacts.elements_delete.
  rewrite Hlist. unfold excludeFromCleanup.
  destruct (cleanupEach_whatever_tracked
              (filter (fun q => negb (String.eqb q p)) (getTempFiles w))
              w (JsSet.delete (tempFiles w) p)) as (-> & -> & ->).
  repeat split. intros Hin. apply filter_In in Hin as [_ Hin].
  now rewrite String.eqb_refl in Hin.
Qed.

End Registry.

(** ** The other writers *)

Section Writers.

Context {E : Type} {platform : Platform E}.

Notation World := (World E).

#[local] Open Scope list_scope.

Ltac split_scrutinee :=
  match goal with
  | |- context [match ?x with _ => _ end] =>
      lazymatch x with
      | context [match _ with _ => _ end] => fail
      | _ => destruct x eqn:?
      end
  end.


(** The name [tempWriteSync] hands to [path.join] ends in the normalized
    extension. *)
Lemma tempWriteSync_name (w w' : World) (content : Js.value) (extension : string)
      (options : Options) (p : string) :
  tempWriteSync w content (Js.Str extension) options = (w', Js.Normal p) ->
  exists stem,
    p = path_join (orDefault (dir options) (os_tmpdir (env w)))
                  (orDefault (prefix options) "temp-" ++ stem
                   ++ normalizeExtension extension)%string.
Proof.
  unfold tempWriteSync. repeat split_scrutinee; intros H; inversion H; subst;
    eexists; unfold tempFileName;
    rewrite <- (StringFacts.append_assoc _ "-"), <- (StringFacts.append_assoc _ (Js.toHex _));
    reflexivity.
Qed.

(** X6.  [tempDirSync] validates nothing and has one way to fail: when
    [mkdirSync] throws, it throws [Failed to create temporary directory]
    with the message of the cause and leaves the module's state as it
    was.  When it returns, the path is the directory joined with a name
    that starts with the prefix ([temp-dir-] unless given), and
    [mkdirSync] has made that very path. *)
Theorem tempDirSync_outcome (w : World) (options : Options) :
  match tempDirSync w options with
  | (w', Js.Throw error) =>
      sameModuleState w w'
      /\ exists e p cause,
           fs_mkdirSync e p = (env w', Js.Throw cause)
           /\ error = Js.Error ("Failed to create temporary directory: "
                                  ++ Js.message cause)%string
  | (w', Js.Normal dirPath) =>
      (exists e, fs_mkdirSync e dirPath = (env w', Js.Normal tt))
      /\ exists stem,
           dirPath = path_join (orDefault (dir options) (os_tmpdir (env w)))
                               (orDefault (prefix options) "temp-dir-" ++ stem)%string
  end.
Proof.
  unfold tempDirSync.
  destruct (crypto_randomBytes (env w) 6) as [e1 bytes].
  destruct (Date_now e1) as [e2 now].
  destruct (fs_mkdirSync e2 _) as [e3 [[]|cause]] eqn:Hmk.
  - destruct (orDefault (cleanup options) true);
      cbn [env set_tempFiles]; rewrite ?registerCleanup_env; cbn [env set_env];
      (split; [eexists; exact Hmk|eexists; reflexivity]).
  - split; [apply sameModuleState_set_env|]. simpl. eauto.
Qed.



(** X8.  [tempCopySync] refuses a source that does not exist with
    [Source file does not exist] and passes on what [readFileSync]
    throws, in both cases before anything is touched.  Otherwise it is
    [tempWriteSync] on the content read, under the extension given or,
    when that is absent or falsy, under the extension of the source; so
    the file it returns was written with exactly the content read. *)
Theorem tempCopySync_writes_what_it_read
        (w : World) (sourcePath : string) (extension : Js.value) (options : Options) :
  (fs_existsSync (env w) sourcePath = false ->
   tempCopySync w sourcePath extension options
   = (w, Js.Throw (Js.Error ("Source file does not exist: " ++ sourcePath)%string)))
  /\ (forall error,
         fs_existsSync (env w) sourcePath = true ->
         fs_readFileSync (env w) sourcePath = Js.Throw error ->
         tempCopySync w sourcePath extension options = (w, Js.Throw error))
  /\ (forall content,
         fs_existsSync (env w) sourcePath = true ->
         fs_readFileSync (env w) sourcePath = Js.Normal content ->
         tempCopySync w sourcePath extension options
         = tempWriteSync w content
             (if Js.truthy extension then extension else Js.Str (path_extname sourcePath))
             options)
  /\ match tempCopySync w sourcePath extension options with
     | (w', Js.Normal p) =>
         exists content e,
           fs_readFileSync (env w) sourcePath = Js.Normal content
           /\ fs_writeFileSync e p content (Some (orDefault (mode options) 384%N))
              = (env w', Js.Normal tt)
     | (w', Js.Throw _) => sameModuleState w w'
     end.
Proof.
  assert (Hcopy : forall content,
             fs_existsSync (env w) sourcePath = true ->
             fs_readFileSync (env w) sourcePath = Js.Normal content ->
             tempCopySync w sourcePath extension options
             = tempWriteSync w content
                 (if Js.truthy extension then extension
                  else Js.Str (path_extname sourcePath)) options).
  { intros content Hex Hread. unfold tempCopySync. rewrite Hex, Hread. simpl.
    destruct extension as [| |[|]|n|s|items|props]; simpl; try reflexivity;
      [destruct (Z.eqb n 0)|destruct (String.eqb s EmptyString)]; reflexivity. }
  split; [|split; [|split]].
  - intros Hex. unfold tempCopySync. now rewrite Hex.
  - intros error Hex Hread. unfold tempCopySync. now rewrite Hex, Hread.
  - exact Hcopy.
  - destruct (fs_existsSync (env w) sourcePath) eqn:Hex.
    + destruct (fs_readFileSync (env w) sourcePath) as [content|error] eqn:Hread.
      * rewrite (Hcopy content eq_refl eq_refl).
        pose proof (tempWriteSync_outcome w content
                      (if Js.truthy extension then extension
                       else Js.Str (path_extname sourcePath)) options) as Hout.
        destruct (tempWriteSync w content _ options) as [w' [p|error]].
        -- destruct Hout as (e2 & e3 & d & _ & Hwrite). eauto.
        -- apply Hout.
      * unfold tempCopySync. rewrite Hex, Hread. apply sameModuleState_refl.
    + unfold tempCopySync. rewrite Hex. apply sameModuleState_refl.
Qed.

End Writers.

(** ** The text of a CSV file *)

Module CsvText.





Lemma append_cancel_r (s : string) : forall x y : string, x ++ s = y ++ s -> x = y.
Proof.
  induction x as [|c x IH]; intros [|d y] H; simpl in H.
  - reflexivity.
  - apply (f_equal String.length) in H. simpl in H.
    rewrite StringFacts.length_append in H. lia.
  - apply (f_equal String.length) in H. simpl in H.
    rewrite StringFacts.length_append in H. lia.
  - inversion H; subst. f_equal. now apply IH.
Qed.

Lemma doubleQuotes_injective : forall s t : string,
  Js.doubleQuotes s = Js.doubleQuotes t -> s = t.
Proof.
  induction s as [|c s IH]; intros [|d t] H; simpl in H.
  - reflexivity.
  - destruct (Ascii.eqb d "034"); discriminate.
  - destruct (Ascii.eqb c "034"); discriminate.
  - assert (Hcd : c = d)
      by (destruct (Ascii.eqb c "034"), (Ascii.eqb d "034"); now inversion H).
    subst d. f_equal. apply IH.
    destruct (Ascii.eqb c "034"); now inversion H.
Qed.




(** X12.  The quoting of a cell loses nothing: two cells are the same
    text only if the values have the same text, a quote inside a value
    being doubled and never closing the cell. *)
Theorem csvCell_injective (a b : Js.value) :
  csvCell a = csvCell b -> Js.toString a = Js.toString b.
Proof.
  unfold csvCell, Js.quote. intros H. inversion H as [Hrest].
  apply append_cancel_r in Hrest. now apply doubleQuotes_injective.
Qed.

End CsvText.

(** ** The listeners at work *)

Section Listeners.

Context {E : Type} {platform : Platform E}.

Notation World := (World E).

#[local] Open Scope list_scope.

(** A second bulk cleanup in a row finds nothing to do. *)
Lemma cleanupAllSync_again (w : World) :
  cleanupAllSync (fst (cleanupAllSync w)) = (fst (cleanupAllSync w), 0).
Proof.
  pose proof (cleanupAllSync_state w) as (Hnil & Hset & _).
  rewrite (cleanupAllSync_idle _ Hnil), Hset, JsSetFacts.clear_clear, <- Hset.
  now rewrite set_tempFiles_same.
Qed.

Lemma process_exit_after_cleanup (w : World) :
  listeners w = exitHandlers ->
  process_exit (fst (cleanupAllSync w)) = fst (cleanupAllSync w).
Proof.
  intros Hl. unfold process_exit.
  destruct (cleanupAllSync_state w) as (_ & _ & _ & -> & _). rewrite Hl.
  simpl. now rewrite cleanupAllSync_again.
Qed.

Lemma emit_attached (w : World) (event : ProcessEvent) (what : string) :
  listeners w = exitHandlers -> emit w event what = afterEvent event what w.
Proof.
  intros Hl. unfold emit, afterEvent. rewrite Hl.
  destruct event; simpl;
    rewrite ?process_exit_after_cleanup by assumption; reflexivity.
Qed.

(** X13.  In every state a program reaches: if nothing was ever tracked
    no listener is attached and an event changes nothing; otherwise the
    listener of the event runs the bulk cleanup once -- the cleanup
    repeated by the ['exit'] listener under [process.exit] finds the
    registry empty -- so that no path is tracked afterwards, and it ends
    the process with status 0 on SIGINT and SIGTERM and with status 1,
    after printing the error, on an uncaught exception or an unhandled
    rejection; the ['exit'] listener alone does not end the process. *)
Theorem listeners_clean_up_once (e : E) (calls : list Call)
        (event : ProcessEvent) (what : string) :
  (listeners (run (loaded e) calls) = []
   /\ emit (run (loaded e) calls) event what = (run (loaded e) calls, None))
  \/ (listeners (run (loaded e) calls) = exitHandlers
      /\ emit (run (loaded e) calls) event what
         = afterEvent event what (run (loaded e) calls)
      /\ getTempFiles (fst (emit (run (loaded e) calls) event what)) = []).
Proof.
  pose proof (run_wellKept calls _ (loaded_wellKept e)) as (Hm & _ & _).
  destruct Hm as [[_ Hl]|[_ Hl]].
  - left. split; [exact Hl|]. unfold emit. now rewrite Hl.
  - right. split; [exact Hl|]. rewrite (emit_attached _ _ _ Hl).
    split; [reflexivity|].
    destruct event; simpl; apply cleanupAllSync_state.
Qed.

End Listeners.

(** ** Names *)

Module Names.

Lemma append_cancel_l (p : string) : forall x y : string, p ++ x = p ++ y -> x = y.
Proof. induction p as [|c p IH]; intros x y H; [exact H|]. inversion H. now apply IH. Qed.

(** Text before the first [c] is determined by the whole. *)
Lemma split_at_first (c : ascii) : forall a b x y : string,
  lacks c a = true -> lacks c b = true ->
  a ++ String c x = b ++ String c y -> a = b /\ x = y.
Proof.
  induction a as [|d a IH]; intros [|d' b] x y Ha Hb H; simpl in *.
  - inversion H. auto.
  - inversion H; subst. now rewrite Ascii.eqb_refl in Hb.
  - inversion H; subst. now rewrite Ascii.eqb_refl in Ha.
  - inversion H; subst.
    apply andb_true_iff in Ha as [_ Ha]. apply andb_true_iff in Hb as [_ Hb].
    destruct (IH b x y Ha Hb H2) as [-> ->]. auto.
Qed.

Lemma digit_not_dash (d : N) : Ascii.eqb (Js.digit d) "-" = false.
Proof.
  unfold Js.digit. destruct (String.get (N.to_nat d) Js.digits36) as [c|] eqn:H;
    [|reflexivity].
  revert H. generalize (N.to_nat d). intros n. unfold Js.digits36.
  do 36 (destruct n as [|n]; [intros H; inversion H; reflexivity|]).
  simpl. discriminate.
Qed.

Lemma radix36_lacks_dash (fuel : nat) : forall (n : N) (acc : string),
  lacks "-" acc = true -> lacks "-" (Js.radix36 fuel n acc) = true.
Proof.
  induction fuel as [|fuel IH]; intros n acc H; simpl; [exact H|].
  assert (lacks "-" (String (Js.digit (n mod 36)) acc) = true)
    by (simpl; now rewrite digit_not_dash).
  destruct (n / 36 =? 0)%N; auto.
Qed.

Lemma toString36_lacks_dash (n : N) : lacks "-" (Js.toString36 n) = true.
Proof. unfold Js.toString36. now apply radix36_lacks_dash. Qed.

Lemma toString36_injective (n m : N) : Js.toString36 n = Js.toString36 m -> n = m.
Proof.
  intros H. rewrite <- (RadixFacts.toString36_value n), <- (RadixFacts.toString36_value m).
  now rewrite H.
Qed.

Lemma byte_of_digits (a b : Byte.byte) :
  Js.digit (Byte.to_N a / 16) = Js.digit (Byte.to_N b / 16) ->
  Js.digit (Byte.to_N a mod 16) = Js.digit (Byte.to_N b mod 16) ->
  a = b.
Proof.
  intros Hhi Hlo.
  pose proof (Byte.to_N_bounded a) as Ha. pose proof (Byte.to_N_bounded b) as Hb.
  apply (f_equal digitValue) in Hhi, Hlo.
  assert (Hbound : forall n : N, (n <= 255 -> n / 16 < 36 /\ n mod 16 < 36)%N).
  { intros n Hn. split.
    - apply N.Div0.div_lt_upper_bound. lia.
    - pose proof (N.mod_lt n 16). lia. }
  destruct (Hbound _ Ha) as [Ha1 Ha2]. destruct (Hbound _ Hb) as [Hb1 Hb2].
  rewrite !RadixFacts.digitValue_digit in Hhi, Hlo by assumption.
  assert (Hn : Byte.to_N a = Byte.to_N b).
  { rewrite (N.div_mod (Byte.to_N a) 16), (N.div_mod (Byte.to_N b) 16) by lia.
    now rewrite Hhi, Hlo. }
  pose proof (Byte.of_to_N a) as Hofa. rewrite Hn, Byte.of_to_N in Hofa.
  now inversion Hofa.
Qed.

Lemma toHex_injective : forall a b : list Byte.byte, Js.toHex a = Js.toHex b -> a = b.
Proof.
  induction a as [|x a IH]; intros [|y b] H; simpl in H; try discriminate.
  - reflexivity.
  - inversion H as [[Hhi Hlo Hrest]]. f_equal; [now apply byte_of_digits|now apply IH].
Qed.

(** X14.  The names are as unique as the clock and the random bytes:
    under one prefix and one extension, two names made by [tempWriteSync]
    (and, with no extension, by [tempDirSync]) from different times or
    from different random bytes are different names. *)
Theorem tempFileName_injective (prefix extension : string) (now1 now2 : N)
        (bytes1 bytes2 : list Byte.byte) :
  now1 <> now2 \/ bytes1 <> bytes2 ->
  tempFileName prefix (Js.toString36 now1) (Js.toHex bytes1) extension
  <> tempFileName prefix (Js.toString36 now2) (Js.toHex bytes2) extension.
Proof.
  intros Hdiff Heq. unfold tempFileName in Heq.
  apply append_cancel_l in Heq.
  apply split_at_first in Heq as [Hts Hrest]; try apply toString36_lacks_dash.
  apply CsvText.append_cancel_r in Hrest.
  apply toString36_injective in Hts. apply toHex_injective in Hrest.
  destruct Hdiff; contradiction.
Qed.

End Names.

(** ** [tempWriteSync] and [cleanupSync] when they succeed *)

Section Success.

Context {E : Type} {platform : Platform E}.

Notation World := (World E).

#[local] Open Scope list_scope.

(** X15.  What [tempWriteSync] checks, it checks first and in this
    order: content that is [null] or [undefined] is refused whatever the
    extension, then an extension that is not a string is refused, both
    before a random byte is drawn or the file system is touched; and an
    extension left out is the empty extension. *)
Theorem tempWriteSync_validates_first (w : World) (content extension : Js.value)
        (options : Options) :
  (nullish content = true ->
   tempWriteSync w content extension options
   = (w, Js.Throw (Js.Error "Content cannot be null or undefined")))
  /\ (nullish content = false ->
      String.eqb (Js.typeof extension) "string" = false ->
      extension <> Js.Undefined ->
      tempWriteSync w content extension options
      = (w, Js.Throw (Js.Error "Extension must be a string")))
  /\ tempWriteSync w content Js.Undefined options
     = tempWriteSync w content (Js.Str EmptyString) options
  /\ normalizeExtension EmptyString = EmptyString.
Proof.
  split; [|split; [|split]].
  - destruct content; try discriminate; reflexivity.
  - intros Hc Hs Hu.
    destruct content; try discriminate;
      destruct extension; try discriminate; try contradiction; reflexivity.
  - unfold tempWriteSync. destruct content; reflexivity.
  - reflexivity.
Qed.

(** X16.  When the directory is there or can be made and the file can be
    written, [tempWriteSync] returns the path it set out to write --
    the directory joined with prefix, timestamp, random fragment and
    normalized extension -- leaves the outside world as the write left
    it, and tracks the path exactly when cleanup was asked for (or the
    path was tracked already). *)
Theorem tempWriteSync_success
        (w : World) (content : Js.value) (extension : string) (options : Options)
        (e2 e' : E) (dir filePath : string) (u : unit) :
  nullish content = false ->
  writeTarget w extension options = (e2, dir, filePath) ->
  writeAttempt e2 dir filePath content (orDefault (mode options) 384%N)
  = (e', Js.Normal u) ->
  snd (tempWriteSync w content (Js.Str extension) options) = Js.Normal filePath
  /\ env (fst (tempWriteSync w content (Js.Str extension) options)) = e'
  /\ isTempFile (fst (tempWriteSync w content (Js.Str extension) options)) filePath
     = orDefault (cleanup options) true || isTempFile w filePath
  /\ exists stem,
       filePath = path_join dir (orDefault (prefix options) "temp-" ++ stem
                                 ++ normalizeExtension extension)%string.
Proof.
  intros Hcontent Htarget Hattempt.
  assert (Hcall : snd (tempWriteSync w content (Js.Str extension) options)
                  = Js.Normal filePath
                  /\ env (fst (tempWriteSync w content (Js.Str extension) options)) = e').
  { unfold writeTarget in Htarget. unfold writeAttempt in Hattempt.
    unfold tempWriteSync.
    destruct (crypto_randomBytes (env w) 6) as [e1 bytes].
    destruct (Date_now e1) as [e2' now].
    inversion Htarget; subst e2' dir filePath; clear Htarget.
    destruct content; try discriminate;
      (destruct (fs_existsSync e2 _);
       [|destruct (fs_mkdirSync e2 _) as [e3 [u'|error]]; [|discriminate]]);
      rewrite Hattempt; destruct (orDefault (cleanup options) true);
      cbn [fst snd env set_tempFiles]; rewrite ?registerCleanup_env; auto. }
  destruct Hcall as [Hret Henv]. split; [exact Hret|]. split; [exact Henv|].
  pose proof (tempWriteSync_creates w content (Js.Str extension) options) as Hcr.
  destruct (tempWriteSync w content (Js.Str extension) options) as [w' r] eqn:Hw.
  simpl in Hret. subst r. split.
  - now destruct (Creates_registry _ _ _ _ Hcr).
  - destruct (tempWriteSync_name _ _ _ _ _ _ Hw) as [stem Hstem].
    exists stem. rewrite Hstem. f_equal.
    unfold writeTarget in Htarget.
    destruct (crypto_randomBytes (env w) 6) as [e1 bytes].
    destruct (Date_now e1) as [e2' now]. now inversion Htarget.
Qed.

(** X17.  On a file system whose removals remove, [true] from
    [cleanupSync] means the path is gone: afterwards nothing exists at
    the path and the path is not tracked. *)
Theorem cleanupSync_true_means_gone {contract : Removes platform}
        (w : World) (p : string) :
  snd (cleanupSync w p) = true ->
  fs_existsSync (env (fst (cleanupSync w p))) p = false
  /\ isTempFile (fst (cleanupSync w p)) p = false.
Proof.
  unfold cleanupSync, isTempFile.
  destruct (remove (env w) p) as [e' [u|error]] eqn:Hrm; simpl; [|discriminate].
  intros _. split; [eapply remove_removes; eassumption|].
  rewrite JsSetFacts.has_delete, String.eqb_refl. reflexivity.
Qed.

End Success.

(** ** Witnesses *)

(** A file is written and tracked: the call that returned it is found. *)
Lemma tracked_paths_were_created_witness :
  exists before c after,
    [call_tempWriteSync (Js.Str "content") (Js.Str "txt") noOptions]
    = (before ++ c :: after)%list
    /\ wantsCleanup c = true
    /\ snd (step (run (loaded (env Example.suite)) before) c)
       = Js.Normal (returned_path "/tmp/temp-loyw3v28-0a1b2c3d4e5f.txt").
Proof.
  apply (tracked_paths_were_created (env Example.suite)
           [call_tempWriteSync (Js.Str "content") (Js.Str "txt") noOptions]
           "/tmp/temp-loyw3v28-0a1b2c3d4e5f.txt").
  vm_compute. reflexivity.
Defined.

(** With the stuck file excluded, the bulk cleanup removes the other file
    and warns of nothing. *)
Lemma cleanupAllSync_skips_excluded_witness :
  NoDup (getTempFiles Example.stuck)
  /\ snd (cleanupAllSync (excludeFromCleanup Example.stuck "/tmp/a")) = 1
  /\ console (fst (cleanupAllSync (excludeFromCleanup Example.stuck "/tmp/a"))) = [].
Proof.
  assert (Hnodup : NoDup (getTempFiles Example.stuck)).
  { vm_compute. repeat constructor; simpl; intuition discriminate. }
  destruct (cleanupAllSync_skips_excluded Example.stuck "/tmp/a" Hnodup)
    as (Hcount & _ & Hconsole & _).
  split; [exact Hnodup|]. split.
  - rewrite Hcount. vm_compute. reflexivity.
  - rewrite Hconsole. vm_compute. reflexivity.
Defined.


(** Two files made one millisecond apart from the same random bytes. *)
Lemma tempFileName_injective_witness :
  tempFileName "temp-" (Js.toString36 1700000000000) (Js.toHex Example.bytes) ".txt"
  <> tempFileName "temp-" (Js.toString36 1700000000001) (Js.toHex Example.bytes) ".txt".
Proof.
  apply (Names.tempFileName_injective "temp-" ".txt" 1700000000000 1700000000001
           Example.bytes Example.bytes).
  left. discriminate.
Defined.

(** The file of [Example.fresh] can be written. *)
Lemma tempWriteSync_success_witness :
  snd (tempWriteSync Example.fresh (Js.Str "hello") (Js.Str "txt") noOptions)
  = Js.Normal "/tmp/temp-loyw3v28-0a1b2c3d4e5f.txt"
  /\ isTempFile (fst (tempWriteSync Example.fresh (Js.Str "hello") (Js.Str "txt") noOptions))
                "/tmp/temp-loyw3v28-0a1b2c3d4e5f.txt" = true.
Proof.
  destruct (tempWriteSync_success Example.fresh (Js.Str "hello") "txt" noOptions
              (Sim.mkEnv [("/tmp", Sim.directory)] [] 1700000000001 [])
              (Sim.mkEnv [("/tmp", Sim.directory);
                          ("/tmp/temp-loyw3v28-0a1b2c3d4e5f.txt",
                           Sim.file (Js.Str "hello") (Some 384%N))]
                         [] 1700000000001 [])
              "/tmp" "/tmp/temp-loyw3v28-0a1b2c3d4e5f.txt" tt)
    as (Hret & _ & Htracked & _).
  - reflexivity.
  - vm_compute. reflexivity.
  - vm_compute. reflexivity.
  - split; [exact Hret|exact Htracked].
Defined.

(** The tracked file of [Example.stuck] that can be removed is removed. *)
Lemma cleanupSync_true_means_gone_witness :
  snd (cleanupSync Example.stuck "/tmp/b") = true
  /\ fs_existsSync (env (fst (cleanupSync Example.stuck "/tmp/b"))) "/tmp/b" = false.
Proof.
  assert (Htrue : snd (cleanupSync Example.stuck "/tmp/b") = true)
    by (vm_compute; reflexivity).
  split; [exact Htrue|].
  apply (cleanupSync_true_means_gone Example.stuck "/tmp/b" Htrue).
Defined.

(** The number 30 and the string of its digits make the same cell, and
    have the same text. *)
Lemma csvCell_injective_witness :
  csvCell (Js.Number 30) = csvCell (Js.Str "30")
  /\ Js.toString (Js.Number 30) = Js.toString (Js.Str "30").
Proof.
  split; [reflexivity|].
  apply (CsvText.csvCell_injective (Js.Number 30) (Js.Str "30")). reflexivity.
Defined.
